(** * JaCoCo test generator: coverage parser and scaffold generator

    A shallow embedding of [jacoco_test_generator/coverage_parser.py] and
    [jacoco_test_generator/test_generator.py], followed by the properties
    of the report parser and of the test scaffold generator.

    Conventions of the embedding:
    - a Python [int] is a [Z]; a Python [float] is the exact rational it
      stands for, kept in lowest terms ([Q] under [Qred]); rounding of the
      double-precision quotient is not modelled, its overflow is: a true
      division whose quotient is out of the range of a double raises
      [OverflowError];
    - [int] of a string refuses more than 4300 digits, the default limit
      of the interpreter;
    - a Python [str] is a [string] of bytes; the case conversions and the
      integer literal reader are the ASCII ones;
    - a raised exception is the [Raise] branch of [Py.result];
    - the input of [parse_report] is the root element that
      [ET.parse(xml_path).getroot()] returns: opening and reading the file
      is outside the embedding. *)

From Stdlib Require Import String Ascii List ZArith QArith Lia Bool.
From Stdlib Require Import Permutation Sorted DecimalString DecimalZ DecimalPos.
Import ListNotations.

Open Scope string_scope.
Open Scope Z_scope.

(** ** Python builtins used by the two modules *)

Module Py.

Inductive exn : Type :=
| ValueError
| AttributeError
| ZeroDivisionError
| OverflowError.

Inductive result (A : Type) : Type :=
| Ok (a : A)
| Raise (e : exn).

Arguments Ok {A} a.
Arguments Raise {A} e.

Definition bind {A B : Type} (m : result A) (k : A -> result B) : result B :=
  match m with
  | Ok a => k a
  | Raise e => Raise e
  end.

(** [for x in xs: s = body(s, x)], stopping at the first exception. *)
Fixpoint for_each {A S : Type} (xs : list A) (body : S -> A -> result S)
  (s : S) : result S :=
  match xs with
  | [] => Ok s
  | x :: rest => bind (body s x) (for_each rest body)
  end.

(** The line feed. *)
Definition nl : string := String (ascii_of_nat 10) "".

(** [sep.join(parts)] is [String.concat sep parts]. *)
Definition join (sep : string) (parts : list string) : string :=
  String.concat sep parts.

Fixpoint map_chars (f : ascii -> ascii) (s : string) : string :=
  match s with
  | EmptyString => EmptyString
  | String a rest => String (f a) (map_chars f rest)
  end.

Definition is_lower (a : ascii) : bool :=
  ((97 <=? nat_of_ascii a) && (nat_of_ascii a <=? 122))%nat.

Definition is_upper (a : ascii) : bool :=
  ((65 <=? nat_of_ascii a) && (nat_of_ascii a <=? 90))%nat.

Definition is_digit (a : ascii) : bool :=
  ((48 <=? nat_of_ascii a) && (nat_of_ascii a <=? 57))%nat.

Definition upper_char (a : ascii) : ascii :=
  if is_lower a then ascii_of_nat (nat_of_ascii a - 32) else a.

Definition lower_char (a : ascii) : ascii :=
  if is_upper a then ascii_of_nat (nat_of_ascii a + 32) else a.

(** [s.upper()] *)
Definition upper (s : string) : string := map_chars upper_char s.

(** [s.lower()] *)
Definition lower (s : string) : string := map_chars lower_char s.

(** [s.capitalize()]: the first character upper-cased, every other
    character lower-cased. *)
Definition capitalize (s : string) : string :=
  match s with
  | EmptyString => EmptyString
  | String a rest => String (upper_char a) (lower rest)
  end.

(** [s.replace(old, new)] for one-character [old] and [new]. *)
Definition replace (old new : ascii) (s : string) : string :=
  map_chars (fun a => if Ascii.eqb a old then new else a) s.

(** [s.split(sep)] for a one-character separator; never the empty list. *)
Fixpoint split (sep : ascii) (s : string) : list string :=
  match s with
  | EmptyString => [EmptyString]
  | String a rest =>
      if Ascii.eqb a sep then EmptyString :: split sep rest
      else match split sep rest with
           | piece :: pieces => String a piece :: pieces
           | [] => [String a EmptyString]
           end
  end.

(** [parts[0]] and [parts[-1]] on the result of a [split]. *)
Definition first_item (parts : list string) : string := hd EmptyString parts.
Definition last_item (parts : list string) : string := last parts EmptyString.

(** [str(n)] for an integer. *)
Definition str_of_int (n : Z) : string := NilZero.string_of_int (Z.to_int n).

(** [range(n)]: [0, 1, ..., n-1], empty when [n <= 0]. *)
Definition range (n : Z) : list Z := map Z.of_nat (seq 0 (Z.to_nat n)).

(** Whitespace that [int] strips around a literal: the space and the
    control characters 9 to 13. *)
Definition is_space (a : ascii) : bool :=
  let c := nat_of_ascii a in
  ((c =? 32) || ((9 <=? c) && (c <=? 13)))%nat.

Fixpoint lstrip (s : string) : string :=
  match s with
  | EmptyString => EmptyString
  | String a rest => if is_space a then lstrip rest else s
  end.

Fixpoint rstrip (s : string) : string :=
  match s with
  | EmptyString => EmptyString
  | String a rest =>
      match rstrip rest with
      | EmptyString => if is_space a then EmptyString else String a EmptyString
      | kept => String a kept
      end
  end.

Definition strip (s : string) : string := rstrip (lstrip s).

Definition digit_value (a : ascii) : Z := Z.of_nat (nat_of_ascii a - 48).

(** Decimal digits, single underscores allowed between two digits.
    [after_digit] tells whether the previous character was a digit. *)
Fixpoint read_digits (s : string) (acc : Z) (after_digit : bool) : option Z :=
  match s with
  | EmptyString => if after_digit then Some acc else None
  | String a rest =>
      if is_digit a then read_digits rest (acc * 10 + digit_value a) true
      else if Ascii.eqb a "_"%char
           then if after_digit then read_digits rest acc false else None
           else None
  end.

(** The number of decimal digits in a text. *)
Fixpoint count_digits (s : string) : nat :=
  match s with
  | EmptyString => 0%nat
  | String a rest =>
      ((if is_digit a then 1 else 0) + count_digits rest)%nat
  end.

(** The interpreter's limit on the digits of a literal that [int] reads
    ([sys.get_int_max_str_digits()], 4300 unless configured otherwise). *)
Definition max_str_digits : nat := 4300.

(** [int(s)] for a string: surrounding whitespace, an optional sign, then
    decimal digits, at most [max_str_digits] of them; anything else raises
    [ValueError]. *)
Definition int_of_str (s : string) : result Z :=
  let body := strip s in
  let signed :=
    match body with
    | String "-"%char digits => option_map Z.opp (read_digits digits 0 false)
    | String "+"%char digits => read_digits digits 0 false
    | _ => read_digits body 0 false
    end in
  match signed with
  | Some n =>
      if (max_str_digits <? count_digits body)%nat then Raise ValueError
      else Ok n
  | None => Raise ValueError
  end.

(** The least magnitude that rounds out of the range of a double: half
    way between the largest double and 2^1024. *)
Definition float_overflow_bound : Z := 2 ^ 1024 - 2 ^ 970.

Arguments float_overflow_bound : simpl never.

(** [a / b] on integers: true division.  It raises [ZeroDivisionError]
    on a zero divisor and [OverflowError] when the quotient is too large
    for a float. *)
Definition truediv (a b : Z) : result Q :=
  if b =? 0 then Raise ZeroDivisionError
  else if float_overflow_bound * Z.abs b <=? Z.abs a then Raise OverflowError
  else Ok (Qred (inject_Z a / inject_Z b)).

(** [x * k] for a float [x] and an integer literal [k]. *)
Definition float_mul (x : Q) (k : Z) : Q := Qred (x * inject_Z k).

(** [x < y] on floats. *)
Definition float_lt (x y : Q) : bool :=
  match Qcompare x y with
  | Lt => true
  | _ => false
  end.

End Py.

Notation "x <- m ;; k" := (Py.bind m (fun x => k))
  (at level 61, m at next level, right associativity).

Import Py.

(** ** xml.etree.ElementTree: the element tree and its queries *)

Module ET.

#[warnings="-register-all"] Inductive element : Type :=
| Element (tag : string) (attrib : list (string * string))
    (children : list element).

Definition tag (e : element) : string :=
  match e with Element t _ _ => t end.

Definition attrib (e : element) : list (string * string) :=
  match e with Element _ a _ => a end.

Definition children (e : element) : list element :=
  match e with Element _ _ c => c end.

Fixpoint lookup (key : string) (attrs : list (string * string))
  : option string :=
  match attrs with
  | [] => None
  | (k, v) :: rest => if String.eqb k key then Some v else lookup key rest
  end.

(** [e.get(key)]: [None] when the attribute is absent. *)
Definition get (e : element) (key : string) : option string :=
  lookup key (attrib e).

(** [e.get(key, default)] with a string default. *)
Definition get_default (e : element) (key default : string) : string :=
  match get e key with
  | Some v => v
  | None => default
  end.

Definition has_tag (name : string) (e : element) : bool :=
  String.eqb (tag e) name.

(** Every element strictly below [e], in document order. *)
Fixpoint descendants (e : element) : list element :=
  match e with
  | Element _ _ kids =>
      (fix below (l : list element) : list element :=
         match l with
         | [] => []
         | kid :: rest => kid :: descendants kid ++ below rest
         end) kids
  end.

(** [e.findall(name)]: the direct children with that tag. *)
Definition findall_children (e : element) (name : string) : list element :=
  filter (has_tag name) (children e).

(** [e.findall(.//name)]: all elements below [e] with that tag, in
    document order. *)
Definition findall_below (e : element) (name : string) : list element :=
  filter (has_tag name) (descendants e).

End ET.

(** ** coverage_parser.py *)

Module CoverageParser.

Record CoverageGap : Type := {
  class_name : string;
  method_name : option string;
  package_name : string;
  line_coverage : Q;
  branch_coverage : Q;
  uncovered_lines : list Z
}.

Record CoverageReport : Type := {
  total_line_coverage : Q;
  total_branch_coverage : Q;
  gaps : list CoverageGap
}.

(** [int(e.get(key, 0))]: the default is the integer 0, which [int] leaves
    as it is; a present attribute goes through the literal reader. *)
Definition int_attr (e : ET.element) (key : string) : result Z :=
  match ET.get e key with
  | None => Ok 0
  | Some text => int_of_str text
  end.

(** [counter.get(type) == wanted] *)
Definition type_is (counter : ET.element) (wanted : string) : bool :=
  match ET.get counter "type" with
  | Some t => String.eqb t wanted
  | None => false
  end.

(** The loop of [_get_coverage_percent] over the element's own counters. *)
Fixpoint coverage_percent_loop (counters : list ET.element) (wanted : string)
  : result Q :=
  match counters with
  | [] => Ok 0%Q
  | counter :: rest =>
      if type_is counter wanted then
        covered <- int_attr counter "covered" ;;
        missed <- int_attr counter "missed" ;;
        let total := covered + missed in
        if 0 <? total then
          ratio <- truediv covered total ;;
          Ok (float_mul ratio 100)
        else coverage_percent_loop rest wanted
      else coverage_percent_loop rest wanted
  end.

Definition _get_coverage_percent (element : ET.element)
  (counter_type : string) : result Q :=
  coverage_percent_loop (ET.findall_children element "counter")
    (upper counter_type).

Definition uncovered_step (uncovered : list Z) (line : ET.element)
  : result (list Z) :=
  line_num <- int_attr line "nr" ;;
  ci <- int_attr line "ci" ;;
  Ok (if ci =? 0 then (uncovered ++ [line_num])%list else uncovered).

Definition _get_uncovered_lines (method_element : ET.element)
  : result (list Z) :=
  for_each (ET.findall_children method_element "line") uncovered_step [].

(** The gap record built at lines 70-77. *)
Definition make_gap (package_name full_class : string) (method : ET.element)
  (line branch : Q) (uncovered : list Z) : CoverageGap :=
  {| class_name := full_class;
     method_name :=
       Some (ET.get_default method "name" "" ++ ET.get_default method "desc" "");
     package_name := package_name;
     line_coverage := line;
     branch_coverage := branch;
     uncovered_lines := uncovered |}.

(** Body of the loop over the methods of a class (lines 59-78); the state
    is the list [gaps]. *)
Definition method_step (package_name full_class : string)
  (gaps : list CoverageGap) (method : ET.element) : result (list CoverageGap) :=
  line <- _get_coverage_percent method "line" ;;
  branch <- _get_coverage_percent method "branch" ;;
  if float_lt line 100 then
    uncovered <- _get_uncovered_lines method ;;
    Ok (gaps ++
        [make_gap package_name full_class method line branch uncovered])%list
  else Ok gaps.

(** The three variables the traversal updates. *)
Record scan : Type := {
  scan_gaps : list CoverageGap;
  scan_line : Q;
  scan_branch : Q
}.

Definition full_class_name (package_name class_name : string) : string :=
  replace "/"%char "."%char (package_name ++ "." ++ class_name).

(** Body of the loop over the classes of a package (lines 54-87). *)
Definition class_step (package_name : string) (st : scan) (cls : ET.element)
  : result scan :=
  let class_name := ET.get_default cls "name" "" in
  let full_class := full_class_name package_name class_name in
  gaps' <- for_each (ET.findall_below cls "method")
             (method_step package_name full_class) (scan_gaps st) ;;
  class_line <- _get_coverage_percent cls "line" ;;
  class_branch <- _get_coverage_percent cls "branch" ;;
  Ok {| scan_gaps := gaps';
        scan_line :=
          if float_lt (scan_line st) class_line then class_line
          else scan_line st;
        scan_branch :=
          if float_lt (scan_branch st) class_branch then class_branch
          else scan_branch st |}.

(** Body of the loop over the packages (lines 50-87). *)
Definition package_step (st : scan) (package : ET.element) : result scan :=
  let package_name := ET.get_default package "name" "" in
  for_each (ET.findall_below package "class") (class_step package_name) st.

(** [(covered / total) * 100] under the guard [total > 0] of lines 96, 102. *)
Definition counter_percent (counter : ET.element) : result (option Q) :=
  covered <- int_attr counter "covered" ;;
  missed <- int_attr counter "missed" ;;
  let total := covered + missed in
  if 0 <? total then
    ratio <- truediv covered total ;;
    Ok (Some (float_mul ratio 100))
  else Ok None.

(** Body of the loop over [root.findall(.//counter)] (lines 90-103). *)
Definition counter_step (st : scan) (counter : ET.element) : result scan :=
  let counter_type := ET.get_default counter "type" "" in
  if String.eqb counter_type "LINE" then
    p <- counter_percent counter ;;
    Ok match p with
       | Some pct => {| scan_gaps := scan_gaps st; scan_line := pct;
                        scan_branch := scan_branch st |}
       | None => st
       end
  else if String.eqb counter_type "BRANCH" then
    p <- counter_percent counter ;;
    Ok match p with
       | Some pct => {| scan_gaps := scan_gaps st; scan_line := scan_line st;
                        scan_branch := pct |}
       | None => st
       end
  else Ok st.

(** [gaps.sort(key=lambda g: g.line_coverage)]: the sort is stable and
    compares keys with [<] only.  An element goes in front of the first
    later element whose key is not smaller than its own. *)
Fixpoint insert_gap (g : CoverageGap) (sorted : list CoverageGap)
  : list CoverageGap :=
  match sorted with
  | [] => [g]
  | h :: rest =>
      if float_lt (line_coverage h) (line_coverage g)
      then h :: insert_gap g rest
      else g :: sorted
  end.

Definition sort_by_line_coverage (l : list CoverageGap) : list CoverageGap :=
  fold_right insert_gap [] l.

Definition initial_scan : scan :=
  {| scan_gaps := []; scan_line := 0%Q; scan_branch := 0%Q |}.

(** Lines 45-87: the package / class / method pass. *)
Definition scan_packages (root : ET.element) : result scan :=
  for_each (ET.findall_below root "package") package_step initial_scan.

(** Lines 90-103: the pass over the counters. *)
Definition scan_counters (root : ET.element) (st : scan) : result scan :=
  for_each (ET.findall_below root "counter") counter_step st.

Definition parse_report (root : ET.element) : result CoverageReport :=
  st <- scan_packages root ;;
  st' <- scan_counters root st ;;
  Ok {| total_line_coverage := scan_line st';
        total_branch_coverage := scan_branch st';
        gaps := sort_by_line_coverage (scan_gaps st') |}.

End CoverageParser.

(** ** test_generator.py *)

Module TestGenerator.

Record GeneratedTest : Type := {
  class_name : string;
  test_method_name : string;
  test_code : string;
  target_class : string;
  target_method : option string
}.

(** [text.split(sep)] where [text] may be [None]: the attribute access on
    [None] raises [AttributeError]. *)
Definition split_attr (text : option string) (sep : ascii)
  : result (list string) :=
  match text with
  | Some s => Ok (split sep s)
  | None => Raise AttributeError
  end.

(** A block of text given line by line. *)
Definition unlines (ls : list string) : string := join nl ls.

Definition _get_test_class_name (target_class : string) : string :=
  let simple_name := last_item (split "."%char target_class) in
  simple_name ++ "Test".

Definition body_case1 (method_name class_simple_name : string) : string :=
  unlines
    [ "    @Test";
      "    public void test" ++ capitalize method_name ++ "Case1() {";
      "        " ++ class_simple_name ++ " instance = new "
        ++ class_simple_name ++ "();";
      "        assertNotNull(instance);";
      "        ";
      "        instance." ++ method_name ++ "();";
      "        ";
      "        assertEquals(instance, instance);";
      "    }" ].

Definition body_case2 (method_name class_simple_name : string) : string :=
  unlines
    [ "    @Test";
      "    public void test" ++ capitalize method_name ++ "Case2() {";
      "        " ++ class_simple_name ++ " instance = new "
        ++ class_simple_name ++ "();";
      "        ";
      "        assertDoesNotThrow(() -> {";
      "            instance." ++ method_name ++ "();";
      "        });";
      "        ";
      "        assertNotNull(instance);";
      "    }" ].

Definition body_case3 (method_name class_simple_name : string) : string :=
  unlines
    [ "    @Test";
      "    public void test" ++ capitalize method_name ++ "Case3() {";
      "        " ++ class_simple_name ++ " instance = new "
        ++ class_simple_name ++ "();";
      "        instance." ++ method_name ++ "();";
      "        ";
      "        Object result = instance;";
      "        assertNotNull(result);";
      "        assertTrue(result instanceof " ++ class_simple_name ++ ");";
      "    }" ].

Definition _generate_test_code (gap : CoverageParser.CoverageGap) (test_index : Z)
  : result string :=
  parts <- split_attr (CoverageParser.method_name gap) "("%char ;;
  let method_name := first_item parts in
  let class_simple_name := last_item (split "."%char (CoverageParser.class_name gap)) in
  if test_index =? 0 then Ok (body_case1 method_name class_simple_name)
  else if test_index =? 1 then Ok (body_case2 method_name class_simple_name)
  else Ok (body_case3 method_name class_simple_name).

(** Body of the loop of [_generate_tests_for_method] (lines 47-58). *)
Definition test_step (gap : CoverageParser.CoverageGap) (test_class : string)
  (tests : list GeneratedTest) (i : Z) : result (list GeneratedTest) :=
  parts <- split_attr (CoverageParser.method_name gap) "("%char ;;
  let name :=
    "test" ++ capitalize (first_item parts) ++ "_Case" ++ str_of_int (i + 1) in
  code <- _generate_test_code gap i ;;
  Ok (tests ++
      [ {| class_name := test_class;
           test_method_name := name;
           test_code := code;
           target_class := CoverageParser.class_name gap;
           target_method := CoverageParser.method_name gap |} ])%list.

Definition _generate_tests_for_method (gap : CoverageParser.CoverageGap) (num_tests : Z)
  : result (list GeneratedTest) :=
  let test_class := _get_test_class_name (CoverageParser.class_name gap) in
  for_each (range num_tests) (test_step gap test_class) [].

(** Body of the loop of [generate_tests] (lines 35-37). *)
Definition gap_step (max_tests_per_gap : Z) (tests : list GeneratedTest)
  (gap : CoverageParser.CoverageGap) : result (list GeneratedTest) :=
  method_tests <- _generate_tests_for_method gap max_tests_per_gap ;;
  Ok (tests ++ method_tests)%list.

Definition generate_tests (gaps : list CoverageParser.CoverageGap) (max_tests_per_gap : Z)
  : result (list GeneratedTest) :=
  for_each (firstn 10 gaps) (gap_step max_tests_per_gap) [].

(** [d[key] = value] on a dict, which keeps its keys in the order of
    their first insertion: an existing key keeps its place and takes the
    new value, a new key goes to the end. *)
Fixpoint dict_set {V : Type} (d : list (string * V)) (key : string)
  (value : V) : list (string * V) :=
  match d with
  | [] => [(key, value)]
  | (k, v) :: rest =>
      if String.eqb k key then (k, value) :: rest
      else (k, v) :: dict_set rest key value
  end.

(** [{t.test_method_name: t for t in tests}] *)
Definition unique_tests (tests : list GeneratedTest)
  : list (string * GeneratedTest) :=
  fold_left (fun d t => dict_set d (test_method_name t) t) tests [].

(** [d.values()] *)
Definition values {V : Type} (d : list (string * V)) : list V := map snd d.

(** The document of lines 126-144 around the joined bodies. *)
Definition file_template (test_class_name package_name test_methods : string)
  : string :=
  unlines
    [ "package " ++ package_name ++ ".test;";
      "";
      "import org.junit.jupiter.api.Test;";
      "import org.junit.jupiter.api.BeforeEach;";
      "import static org.junit.jupiter.api.Assertions.*;";
      "import " ++ package_name ++ ".*;";
      "";
      "public class " ++ test_class_name ++ " {";
      "    ";
      "    private Object instance;";
      "    ";
      "    @BeforeEach";
      "    public void setUp() {";
      "        // Initialize test fixtures";
      "    }";
      "    ";
      test_methods;
      "}";
      "" ].

Definition format_test_file (test_class_name package_name : string)
  (tests : list GeneratedTest) : string :=
  let test_methods :=
    join (nl ++ nl) (map test_code (values (unique_tests tests))) in
  file_template test_class_name package_name test_methods.

End TestGenerator.

(** ** Vocabulary of the statements *)

Module Terms.

Import ET CoverageParser.

(** The counters of kind [kind] that an element carries itself. *)
Definition own_counters (e : element) (kind : string) : list element :=
  filter (fun c => type_is c kind) (findall_children e "counter").

(** A counter whose two counts are readable. *)
Definition counts (c : element) (covered missed : Z) : Prop :=
  int_attr c "covered" = Ok covered /\ int_attr c "missed" = Ok missed.

(** A counter that is readable and counts nothing. *)
Definition empty_counter (c : element) : Prop :=
  exists covered missed, counts c covered missed /\ covered + missed <= 0.

(** The methods the parser visits, in the order it visits them: package by
    package, class by class, method by method; each with the package name
    and the qualified class name in force at the visit. *)
Definition visited_methods (root : element)
  : list (string * string * element) :=
  flat_map
    (fun package =>
       let package_name := get_default package "name" "" in
       flat_map
         (fun cls =>
            let full_class :=
              full_class_name package_name (get_default cls "name" "") in
            map (fun m => (package_name, full_class, m))
              (findall_below cls "method"))
         (findall_below package "class"))
    (findall_below root "package").

Definition visit (gaps : list CoverageGap) (v : string * string * element)
  : result (list CoverageGap) :=
  let '(package_name, full_class, m) := v in
  method_step package_name full_class gaps m.

(** The gaps in the order of their discovery, before the sort. *)
Definition discovered_gaps (root : element) : result (list CoverageGap) :=
  for_each (visited_methods root) visit [].

(** The gaps a class adds, as a loop on the gap list alone. *)
Definition class_gaps (package_name : string) (gaps : list CoverageGap)
  (cls : element) : result (list CoverageGap) :=
  for_each (findall_below cls "method")
    (method_step package_name
       (full_class_name package_name (get_default cls "name" "")))
    gaps.

Definition package_gaps (gaps : list CoverageGap) (package : element)
  : result (list CoverageGap) :=
  for_each (findall_below package "class")
    (class_gaps (get_default package "name" "")) gaps.

(** The classes the parser visits, in order. *)
Definition visited_classes (root : element) : list element :=
  flat_map (fun package => findall_below package "class")
    (findall_below root "package").

(** A visited method whose own line percentage is below 100. *)
Definition below_full (v : string * string * element) : bool :=
  match _get_coverage_percent (snd v) "line" with
  | Ok p => float_lt p 100
  | Raise _ => false
  end.

(** [g] is the gap record of the visited method [v]. *)
Definition gap_of (v : string * string * element) (g : CoverageGap) : Prop :=
  let '(package_name, full_class, m) := v in
  exists line branch uncovered,
    _get_coverage_percent m "line" = Ok line /\
    _get_coverage_percent m "branch" = Ok branch /\
    _get_uncovered_lines m = Ok uncovered /\
    g = make_gap package_name full_class m line branch uncovered.

(** The order on gaps that the sort establishes. *)
Definition line_le (a b : CoverageGap) : Prop :=
  (line_coverage a <= line_coverage b)%Q.

(** The gaps of a list whose line percentage equals [v]. *)
Definition with_line (v : Q) (l : list CoverageGap) : list CoverageGap :=
  filter (fun g => Qeq_bool (line_coverage g) v) l.

End Terms.

(** ** Counters, read off the element tree *)

Module CounterTerms.

Import ET.

(** [c] is a [counter] element whose [type] attribute is [kind]. *)
Definition counter_of_kind (kind : string) (c : element) : bool :=
  String.eqb (tag c) "counter" &&
  match lookup "type" (attrib c) with
  | Some t => String.eqb t kind
  | None => false
  end.

(** The counters of kind [kind] among the children of [e], in document
    order. *)
Definition counters_of_kind (e : element) (kind : string) : list element :=
  filter (counter_of_kind kind) (children e).

(** Attribute [key] of [c] stands for the integer [n]: 0 when the
    attribute is absent, what [int] reads in its text otherwise. *)
Definition reads (c : element) (key : string) (n : Z) : Prop :=
  match lookup key (attrib c) with
  | None => n = 0
  | Some text => int_of_str text = Ok n
  end.

(** A counter that counts nothing. *)
Definition counts_nothing (c : element) : Prop :=
  exists covered missed,
    reads c "covered" covered /\ reads c "missed" missed /\
    covered + missed <= 0.

End CounterTerms.

(** ** Vocabulary of the statements on the generator *)

Module GenTerms.

Import TestGenerator.

(** The text of [s] before its first [sep]: everything from the first
    [sep] onward is dropped. *)
Fixpoint up_to (sep : ascii) (s : string) : string :=
  match s with
  | EmptyString => EmptyString
  | String a rest =>
      if Ascii.eqb a sep then EmptyString else String a (up_to sep rest)
  end.

(** The first character upper-cased, the others as they are. *)
Definition upper_first (s : string) : string :=
  match s with
  | EmptyString => EmptyString
  | String a rest => String (upper_char a) rest
  end.

(** The test method name as section 4.2 rule 4 words it. *)
Definition spec_test_method_name (signature : string) (i : Z) : string :=
  "test" ++ upper_first (up_to "("%char signature) ++ "_Case"
    ++ str_of_int (i + 1).

Definition bare_name (signature : string) : string :=
  first_item (split "("%char signature).

Definition simple_name (cls : string) : string :=
  last_item (split "."%char cls).

Definition case_body (i : Z) (method_name class_simple_name : string)
  : string :=
  if i =? 0 then body_case1 method_name class_simple_name
  else if i =? 1 then body_case2 method_name class_simple_name
  else body_case3 method_name class_simple_name.

(** The entry built for a gap with signature [signature] at index [i]. *)
Definition generated_test (gap : CoverageParser.CoverageGap)
  (signature : string) (i : Z) : GeneratedTest :=
  {| class_name := simple_name (CoverageParser.class_name gap) ++ "Test";
     test_method_name :=
       "test" ++ capitalize (bare_name signature) ++ "_Case"
         ++ str_of_int (i + 1);
     test_code :=
       case_body i (bare_name signature)
         (simple_name (CoverageParser.class_name gap));
     target_class := CoverageParser.class_name gap;
     target_method := Some signature |}.

(** The entries of one gap. *)
Definition tests_of (n : Z) (gap : CoverageParser.CoverageGap)
  : list GeneratedTest :=
  match CoverageParser.method_name gap with
  | Some signature => map (generated_test gap signature) (range n)
  | None => []
  end.

Definition has_signature (gap : CoverageParser.CoverageGap) : Prop :=
  CoverageParser.method_name gap <> None.

Definition names (tests : list GeneratedTest) : list string :=
  map test_method_name tests.

(** Each string once, at the place of its first occurrence. *)
Fixpoint first_occurrences (l : list string) : list string :=
  match l with
  | [] => []
  | x :: rest =>
      x :: filter (fun y => negb (String.eqb y x)) (first_occurrences rest)
  end.

(** The last test of the list that bears the name. *)
Definition last_named (name : string) (tests : list GeneratedTest)
  : option GeneratedTest :=
  find (fun t => String.eqb (test_method_name t) name) (rev tests).

Definition option_list {V : Type} (o : option V) : list V :=
  match o with
  | Some v => [v]
  | None => []
  end.

(** The input without its duplicates, as document assembly rules 1 and 2
    word it: one test per name, the last one given, in the order in
    which the names first occur. *)
Definition survivors (tests : list GeneratedTest) : list GeneratedTest :=
  flat_map (fun name => option_list (last_named name tests))
    (first_occurrences (names tests)).

(** Texts put one after the other with one blank line in between. *)
Fixpoint blank_line_separated (bodies : list string) : string :=
  match bodies with
  | [] => EmptyString
  | [body] => body
  | body :: rest => body ++ (nl ++ nl) ++ blank_line_separated rest
  end.

(** [d.get(key)] on a dict. *)
Fixpoint assoc {V : Type} (key : string) (d : list (string * V)) : option V :=
  match d with
  | [] => None
  | (k, v) :: rest => if String.eqb k key then Some v else assoc key rest
  end.

End GenTerms.

(** ** Sample inputs *)

Module Samples.

Import ET CoverageParser.

Definition counter (kind covered missed : string) : element :=
  Element "counter"
    [("type", kind); ("covered", covered); ("missed", missed)] [].

Definition method (name desc : string) (kids : list element) : element :=
  Element "method" [("name", name); ("desc", desc)] kids.

(** One package [com/acme], one class [Widget], one method [render()V]
    with a LINE counter covered=3, missed=2. *)
Definition render_method : element :=
  method "render" "()V" [counter "LINE" "3" "2"].

Definition widget_report : element :=
  Element "report" [("name", "demo")]
    [ Element "package" [("name", "com/acme")]
        [ Element "class" [("name", "Widget")] [render_method] ] ].

(** Two classes with their own LINE counters, 9 of 10 and 1 of 2 lines
    covered, and no counter under the report element itself. *)
Definition class_a : element :=
  Element "class" [("name", "A")] [counter "LINE" "9" "1"].

Definition class_b : element :=
  Element "class" [("name", "B")] [counter "LINE" "1" "1"].

Definition two_class_report : element :=
  Element "report" [("name", "demo")]
    [ Element "package" [("name", "p")] [class_a; class_b] ].

(** Three methods: half covered, fully covered, half covered. *)
Definition three_method_report : element :=
  Element "report" []
    [ Element "package" [("name", "p")]
        [ Element "class" [("name", "K")]
            [ method "first" "()V" [counter "LINE" "1" "1"];
              method "done" "()V" [counter "LINE" "4" "0"];
              method "second" "()V" [counter "LINE" "2" "2"];
              method "zero" "()V" [counter "LINE" "0" "5"] ] ] ].

Definition gap_for (cls : string) (signature : option string) : CoverageGap :=
  {| class_name := cls;
     method_name := signature;
     package_name := "com.acme";
     line_coverage := 0%Q;
     branch_coverage := 0%Q;
     uncovered_lines := [] |}.

(** A gap for the method [getValue()I]. *)
Definition getValue_gap : CoverageGap :=
  gap_for "com.acme.Widget" (Some "getValue()I").

(** A class-level gap: no method signature. *)
Definition class_level_gap : CoverageGap :=
  gap_for "com.acme.Widget" None.

Definition named_test (name body : string) : TestGenerator.GeneratedTest :=
  {| TestGenerator.class_name := "WidgetTest";
     TestGenerator.test_method_name := name;
     TestGenerator.test_code := body;
     TestGenerator.target_class := "com.acme.Widget";
     TestGenerator.target_method := Some "render()V" |}.

(** Three tests, the first and the last under one name. *)
Definition repeated_tests : list TestGenerator.GeneratedTest :=
  [ named_test "testA" "first body";
    named_test "testB" "middle body";
    named_test "testA" "last body" ].

End Samples.

(** ** Vocabulary of the further statements *)

Module Further.

Import ET CoverageParser CounterTerms.

(** The percentage a counter of kind [kind] sets in the counters pass,
    when it sets one. *)
Definition live_percent (kind : string) (c : element) : option Q :=
  if String.eqb (get_default c "type" "") kind then
    match counter_percent c with
    | Ok (Some p) => Some p
    | _ => None
    end
  else None.

(** The percentage set by the last counter of the list that sets one. *)
Definition last_live (kind : string) (cs : list element) : option Q :=
  fold_left
    (fun found c =>
       match live_percent kind c with
       | Some p => Some p
       | None => found
       end)
    cs None.

(** The integer attributes the parser reads. *)
Definition count_keys : list string := ["covered"; "missed"; "nr"; "ci"].

(** The integer attributes of [e] are decimal literals or absent. *)
Definition readable_node (e : element) : Prop :=
  forall key, In key count_keys -> exists n, int_attr e key = Ok n.

(** Every integer attribute the parser may read below [root] is readable. *)
Definition readable (root : element) : Prop :=
  forall e, In e (descendants root) -> readable_node e.

(** No counter element below [root] has a negative count. *)
Definition counts_nonnegative (root : element) : Prop :=
  forall c covered missed,
    In c (findall_below root "counter") ->
    int_attr c "covered" = Ok covered -> int_attr c "missed" = Ok missed ->
    0 <= covered /\ 0 <= missed.

(** The exceptions the traversal can raise on the document [root]:
    [ValueError], or [OverflowError] with a negative count behind it. *)
Definition raise_allowed (root : element) (e : exn) : Prop :=
  e = ValueError \/
  (e = OverflowError /\
   exists c covered missed,
     In c (findall_below root "counter") /\
     int_attr c "covered" = Ok covered /\
     int_attr c "missed" = Ok missed /\
     (covered < 0 \/ missed < 0)).

(** Every covered, missed, nr and ci attribute below [root] is absent or
    a text that [int] reads. *)
Definition decimal_counts (root : element) : Prop :=
  forall e, In e (descendants root) ->
  forall key, In key count_keys -> exists n, reads e key n.

(** No counter below [root] stands for a negative count. *)
Definition no_negative_count (root : element) : Prop :=
  forall c covered missed,
    In c (findall_below root "counter") ->
    reads c "covered" covered -> reads c "missed" missed ->
    0 <= covered /\ 0 <= missed.

(** The character [c] occurs in [s]. *)
Definition occurs (c : ascii) (s : string) : Prop :=
  In c (list_ascii_of_string s).

End Further.

(** ** Further sample inputs *)

Module MoreSamples.

Import ET CoverageParser.

Definition line (attrs : list (string * string)) : element :=
  Element "line" attrs [].

(** A method with three line entries: one without covered instructions,
    one with two, one that does not say. *)
Definition lined_method : element :=
  Samples.method "render" "()V"
    [ line [("nr", "3"); ("ci", "0")];
      line [("nr", "4"); ("ci", "2")];
      line [("nr", "7")] ].

(** The report that [Samples.widget_report] parses to. *)
Definition widget_gap : CoverageGap :=
  {| class_name := "com.acme.Widget";
     method_name := Some "render()V";
     package_name := "com/acme";
     line_coverage := 60;
     branch_coverage := 0;
     uncovered_lines := [] |}.

Definition widget_parsed : CoverageReport :=
  {| total_line_coverage := 60;
     total_branch_coverage := 0;
     gaps := [widget_gap] |}.

(** The decimal literal of 10^400, and of 1 - 10^400. *)
Definition ten_to_400 : string :=
  String "1" (String.concat "" (repeat "0" 400)).

(** A report whose only counter has 10^400 lines covered and 1 - 10^400
    missed: a total of 1. *)
Definition overflowing_report : element :=
  Element "report" []
    [ Samples.counter "LINE" ten_to_400
        (String "-" (String.concat "" (repeat "9" 400))) ].

(** Two overloads of one method in one class. *)
Definition overload_int : CoverageGap :=
  Samples.gap_for "com.acme.Widget" (Some "resize(I)V").

Definition overload_long : CoverageGap :=
  Samples.gap_for "com.acme.Widget" (Some "resize(J)V").

(** What [git status --porcelain] prints for an untracked file and a file
    in conflict. *)
Definition porcelain_sample : string :=
  "?? new.txt" ++ nl ++ "UU both.txt" ++ nl.

(** What it prints for a class file, a source file and a file under
    [target/]. *)
Definition porcelain_build : string :=
  "?? Widget.class" ++ nl ++ " M src/Widget.java" ++ nl
    ++ "?? target/out.txt" ++ nl.

End MoreSamples.

(** ** Text operations used by git_tools.py *)

Module PyText.

(** The characters [s.strip()] removes from the ends of a text. *)
Definition is_whitespace (a : ascii) : bool :=
  let c := nat_of_ascii a in
  ((c =? 32) || ((9 <=? c) && (c <=? 13)) || ((28 <=? c) && (c <=? 31)))%nat.

Fixpoint lstrip (s : string) : string :=
  match s with
  | EmptyString => EmptyString
  | String a rest => if is_whitespace a then lstrip rest else s
  end.

Fixpoint rstrip (s : string) : string :=
  match s with
  | EmptyString => EmptyString
  | String a rest =>
      match rstrip rest with
      | EmptyString =>
          if is_whitespace a then EmptyString else String a EmptyString
      | kept => String a kept
      end
  end.

(** [s.strip()] *)
Definition strip (s : string) : string := rstrip (lstrip s).

(** [s[:n]] *)
Fixpoint take (n : nat) (s : string) : string :=
  match n, s with
  | S k, String a rest => String a (take k rest)
  | _, _ => EmptyString
  end.

(** [s[n:]] *)
Fixpoint drop (n : nat) (s : string) : string :=
  match n, s with
  | S k, String _ rest => drop k rest
  | _, _ => s
  end.

(** [s[i]]; [None] stands for the [IndexError] of an index out of range. *)
Definition item (s : string) (i : nat) : option ascii := String.get i s.

(** [s.startswith(prefix)] *)
Fixpoint startswith (s prefix : string) : bool :=
  match prefix, s with
  | EmptyString, _ => true
  | String p prefix', String a rest =>
      Ascii.eqb a p && startswith rest prefix'
  | String _ _, EmptyString => false
  end.

(** [s.endswith(suffix)] *)
Definition endswith (s suffix : string) : bool :=
  (String.length suffix <=? String.length s)%nat &&
  String.eqb (drop (String.length s - String.length suffix) s) suffix.

(** [sub in s] *)
Fixpoint contains (sub s : string) : bool :=
  startswith s sub ||
  match s with
  | EmptyString => false
  | String _ rest => contains sub rest
  end.

(** [x in l] for a list of texts. *)
Definition member (x : string) (l : list string) : bool :=
  existsb (String.eqb x) l.

(** [not s]: the empty text is false. *)
Definition is_empty (s : string) : bool :=
  match s with
  | EmptyString => true
  | String _ _ => false
  end.

End PyText.

(** ** git_tools.py: the reading of [git status --porcelain]

    The subprocess calls are outside the embedding; what is modelled is
    what [git_status] (lines 102-145) and [git_add_all] (lines 163-212)
    do with the text that [git status --porcelain] printed. *)

Module GitTools.

Import PyText.

Record GitStatus : Type := {
  is_clean : bool;
  staged_changes : list string;
  unstaged_changes : list string;
  untracked_files : list string;
  conflicts : list string;
  current_branch : string;
  commits_ahead : Z
}.

(** The four lists the loop of [git_status] fills. *)
Record tally : Type := {
  staged : list string;
  unstaged : list string;
  untracked : list string;
  conflicted : list string
}.

Definition conflict_codes : list string :=
  ["DD"; "AU"; "UD"; "UA"; "DD"; "AA"; "UU"].

(** [l.append(x)] under a condition. *)
Definition append_if (cond : bool) (l : list string) (x : string)
  : list string :=
  if cond then (l ++ [x])%list else l.

(** Body of the loop of lines 107-128; [None] is the [IndexError] of
    [status_code[1]] on a line of one character. *)
Definition status_step (t : tally) (line : string) : option tally :=
  if is_empty line then Some t
  else
    let status_code := take 2 line in
    let filename := drop 3 line in
    match item status_code 0 with
    | None => None
    | Some first =>
        match item status_code 1 with
        | None => None
        | Some second =>
            Some
              {| staged :=
                   append_if (negb (Ascii.eqb first " "%char))
                     (staged t) filename;
                 unstaged :=
                   append_if (negb (Ascii.eqb second " "%char))
                     (unstaged t) filename;
                 untracked :=
                   append_if (String.eqb status_code "??")
                     (untracked t) filename;
                 conflicted :=
                   append_if (member status_code conflict_codes)
                     (conflicted t) filename |}
        end
    end.

Fixpoint status_loop (lines : list string) (t : tally) : option tally :=
  match lines with
  | [] => Some t
  | line :: rest =>
      match status_step t line with
      | Some t' => status_loop rest t'
      | None => None
      end
  end.

(** [not l] for a list. *)
Definition no_items (l : list string) : bool :=
  match l with
  | [] => true
  | _ :: _ => false
  end.

(** Lines 102-145 of [git_status], from the branch name, the number of
    commits ahead and the text printed by [git status --porcelain]. *)
Definition read_status (current_branch : string) (commits_ahead : Z)
  (stdout : string) : option GitStatus :=
  match status_loop (split (ascii_of_nat 10) (strip stdout))
          {| staged := []; unstaged := []; untracked := [];
             conflicted := [] |} with
  | None => None
  | Some t =>
      Some
        {| is_clean :=
             no_items (staged t) && no_items (unstaged t) &&
             no_items (conflicted t) && (commits_ahead =? 0);
           staged_changes := staged t;
           unstaged_changes := unstaged t;
           untracked_files := untracked t;
           conflicts := conflicted t;
           current_branch := current_branch;
           commits_ahead := commits_ahead |}
  end.

(** Lines 164-177: the patterns used when none are given. *)
Definition default_exclude_patterns : list string :=
  [ "*.class"; "*.jar"; "target/"; "build/"; "dist/"; "__pycache__/";
    "*.pyc"; ".pytest_cache/"; ".venv/"; "node_modules/"; ".coverage";
    "*.egg-info/" ].

(** Lines 197-209: the loop over the patterns, left at the first match. *)
Fixpoint should_skip (exclude_patterns : list string) (filename : string)
  : bool :=
  match exclude_patterns with
  | [] => false
  | pattern :: rest =>
      if endswith pattern "/" then
        if startswith filename pattern then true
        else should_skip rest filename
      else if startswith pattern "*" then
        if endswith filename (drop 1 pattern) then true
        else should_skip rest filename
      else if contains pattern filename then true
      else should_skip rest filename
  end.

(** Body of the loop of lines 190-212. *)
Definition add_step (exclude_patterns : list string)
  (files_to_add : list string) (line : string) : list string :=
  if is_empty line then files_to_add
  else
    let filename := drop 3 line in
    if should_skip exclude_patterns filename then files_to_add
    else (files_to_add ++ [filename])%list.

(** Lines 163-212 of [git_add_all]: the files it goes on to stage, from
    the patterns given and the text printed by [git status --porcelain]. *)
Definition files_to_add (exclude_patterns : option (list string))
  (stdout : string) : list string :=
  let patterns :=
    match exclude_patterns with
    | None => default_exclude_patterns
    | Some given => given
    end in
  fold_left (add_step patterns) (split (ascii_of_nat 10) (strip stdout)) [].

(** The test one pattern makes on a file name. *)
Definition pattern_matches (pattern filename : string) : bool :=
  if endswith pattern "/" then startswith filename pattern
  else if startswith pattern "*" then endswith filename (drop 1 pattern)
  else contains pattern filename.

End GitTools.


(** ** Facts about the builtins *)

Open Scope list_scope.

Section LoopFacts.

Context {A S : Type}.
Variable body : S -> A -> result S.

Lemma for_each_app (xs ys : list A) (s : S) :
  for_each (xs ++ ys) body s = bind (for_each xs body s) (for_each ys body).
Proof.
  revert s; induction xs as [|x xs IH]; intros s; simpl; [reflexivity|].
  destruct (body s x) as [s'|e]; simpl; [apply IH | reflexivity].
Qed.

Lemma for_each_snoc (xs : list A) (x : A) (s s' : S) :
  for_each xs body s = Ok s' ->
  for_each (xs ++ [x]) body s = body s' x.
Proof.
  intros H. rewrite for_each_app, H. simpl.
  destruct (body s' x); reflexivity.
Qed.

(** A property of the state that every iteration keeps holds at the end. *)
Lemma for_each_invariant (P : S -> Prop) (xs : list A) :
  (forall s x s', In x xs -> P s -> body s x = Ok s' -> P s') ->
  forall s s', P s -> for_each xs body s = Ok s' -> P s'.
Proof.
  induction xs as [|x xs IH]; intros Hstep s s' Hs Hrun; simpl in Hrun.
  - injection Hrun as <-. exact Hs.
  - destruct (body s x) as [s1|e] eqn:Hx; simpl in Hrun; [|discriminate].
    apply (IH (fun s0 y s0' Hy => Hstep s0 y s0' (or_intror Hy)) s1 s');
      [|exact Hrun].
    apply (Hstep s x s1); [left; reflexivity | exact Hs | exact Hx].
Qed.

End LoopFacts.

Lemma for_each_flat_map {A B S : Type} (f : A -> list B)
  (body : S -> B -> result S) (xs : list A) (s : S) :
  for_each (flat_map f xs) body s =
  for_each xs (fun s0 x => for_each (f x) body s0) s.
Proof.
  revert s; induction xs as [|x xs IH]; intros s; simpl; [reflexivity|].
  rewrite for_each_app.
  destruct (for_each (f x) body s) as [s'|e]; simpl; [apply IH | reflexivity].
Qed.

Lemma for_each_ext {A S : Type} (f g : S -> A -> result S) (xs : list A) :
  (forall s x, In x xs -> f s x = g s x) ->
  forall s, for_each xs f s = for_each xs g s.
Proof.
  induction xs as [|x xs IH]; intros Hfg s; simpl; [reflexivity|].
  rewrite (Hfg s x (or_introl eq_refl)).
  destruct (g s x) as [s'|e]; simpl; [|reflexivity].
  apply IH. intros s0 y Hy. apply Hfg. right; exact Hy.
Qed.

Lemma bind_ok {A B : Type} (m : result A) (k : A -> result B) (b : B) :
  bind m k = Ok b -> exists a, m = Ok a /\ k a = Ok b.
Proof.
  destruct m as [a|e]; simpl; intros H; [|discriminate].
  exists a; split; [reflexivity | exact H].
Qed.

Lemma float_lt_iff (x y : Q) : float_lt x y = true <-> (x < y)%Q.
Proof.
  unfold float_lt. rewrite Qlt_alt.
  destruct (x ?= y)%Q; split; intros H; try reflexivity; discriminate.
Qed.

Lemma float_lt_false_iff (x y : Q) : float_lt x y = false <-> (y <= x)%Q.
Proof.
  rewrite <- Bool.not_true_iff_false, float_lt_iff. split.
  - apply Qnot_lt_le.
  - apply Qle_not_lt.
Qed.

Lemma float_overflow_bound_large : 1 < float_overflow_bound.
Proof. apply Z.ltb_lt. vm_compute. reflexivity. Qed.

(** A quotient of counts: between 0 and 1, it is in range. *)
Lemma truediv_ok (a b : Z) :
  0 <= a <= b -> 0 < b ->
  truediv a b = Ok (Qred (inject_Z a / inject_Z b)).
Proof.
  intros Ha Hb. unfold truediv.
  destruct (Z.eqb_spec b 0) as [E|_]; [lia|].
  pose proof float_overflow_bound_large as Hbound.
  destruct (Z.leb_spec (float_overflow_bound * Z.abs b) (Z.abs a))
    as [Hle|_]; [|reflexivity].
  exfalso. rewrite !Z.abs_eq in Hle by lia. nia.
Qed.

Lemma truediv_cases (a b : Z) :
  b <> 0 ->
  truediv a b = Ok (Qred (inject_Z a / inject_Z b)) \/
  (truediv a b = Raise OverflowError /\
   float_overflow_bound * Z.abs b <= Z.abs a).
Proof.
  intros Hb. unfold truediv.
  destruct (Z.eqb_spec b 0) as [E|_]; [contradiction|].
  destruct (Z.leb_spec (float_overflow_bound * Z.abs b) (Z.abs a))
    as [Hle|_]; [right; split; [reflexivity | exact Hle] | left; reflexivity].
Qed.

Lemma truediv_value (a b : Z) (r : Q) :
  truediv a b = Ok r -> r = Qred (inject_Z a / inject_Z b).
Proof.
  unfold truediv. destruct (b =? 0); [discriminate|].
  destruct (_ <=? _); [discriminate|].
  intros H; injection H as <-. reflexivity.
Qed.

(** A quotient too large for a float has a negative count behind it. *)
Lemma truediv_overflow_negative (covered missed : Z) :
  0 < covered + missed ->
  truediv covered (covered + missed) = Raise OverflowError ->
  covered < 0 \/ missed < 0.
Proof.
  intros Hpos Hraise.
  destruct (Z_lt_le_dec covered 0) as [Hc|Hc]; [left; exact Hc|].
  destruct (Z_lt_le_dec missed 0) as [Hm|Hm]; [right; exact Hm|].
  rewrite truediv_ok in Hraise by lia. discriminate Hraise.
Qed.

Lemma float_mul_eq (x : Q) (k : Z) : (float_mul x k == x * inject_Z k)%Q.
Proof. unfold float_mul. apply Qred_correct. Qed.

(** ** The percentage of a node (lines 114-124) *)

Section CoveragePercent.

Import ET CoverageParser Terms.

Lemma coverage_percent_loop_filter (cs : list element) (kind : string) :
  coverage_percent_loop cs kind =
  coverage_percent_loop (filter (fun c => type_is c kind) cs) kind.
Proof.
  induction cs as [|c cs IH]; simpl; [reflexivity|].
  destruct (type_is c kind) eqn:Hc; simpl; [|exact IH].
  rewrite Hc.
  destruct (int_attr c "covered") as [cov|]; simpl; [|reflexivity].
  destruct (int_attr c "missed") as [mis|]; simpl; [|reflexivity].
  destruct (0 <? cov + mis); [reflexivity | exact IH].
Qed.

Lemma coverage_percent_loop_idle (idle rest : list element) (kind : string) :
  Forall (fun c => type_is c kind = true) idle ->
  Forall empty_counter idle ->
  coverage_percent_loop (idle ++ rest) kind = coverage_percent_loop rest kind.
Proof.
  induction idle as [|c idle IH]; intros Hkind Hidle; simpl; [reflexivity|].
  inversion Hkind as [|? ? Hc Hkind']; subst.
  inversion Hidle as [|? ? (cov & mis & (Hcov & Hmis) & Hle) Hidle']; subst.
  rewrite Hc, Hcov, Hmis. simpl.
  destruct (Z.ltb_spec 0 (cov + mis)) as [Hlt|_]; [lia|].
  apply IH; assumption.
Qed.

Lemma int_attr_raises (c : element) (key : string) (e : exn) :
  int_attr c key = Raise e -> e = ValueError.
Proof.
  unfold int_attr, int_of_str.
  destruct (get c key) as [text|]; [|discriminate].
  match goal with |- context [match ?x with Some _ => _ | None => _ end] =>
    destruct x end.
  - destruct (_ <? _)%nat; [|discriminate].
    intros H; injection H as <-; reflexivity.
  - intros H; injection H as <-; reflexivity.
Qed.

Lemma coverage_percent_loop_no_division_error (cs : list element)
  (kind : string) :
  coverage_percent_loop cs kind <> Raise ZeroDivisionError.
Proof.
  induction cs as [|c cs IH]; simpl; [discriminate|].
  destruct (type_is c kind); [|exact IH].
  destruct (int_attr c "covered") as [cov|e] eqn:Hcov; cbn [bind].
  - destruct (int_attr c "missed") as [mis|e] eqn:Hmis; cbn [bind].
    + destruct (Z.ltb_spec 0 (cov + mis)) as [Hlt|_]; [|exact IH].
      destruct (truediv_cases cov (cov + mis)) as [->|[-> _]];
        [lia | discriminate | discriminate].
    + apply int_attr_raises in Hmis; subst e; discriminate.
  - apply int_attr_raises in Hcov; subst e; discriminate.
Qed.

End CoveragePercent.

Section CoveragePercentClaim.

Import ET CoverageParser Terms CounterTerms.

Lemma filter_twice {A : Type} (f g : A -> bool) (l : list A) :
  filter f (filter g l) = filter (fun x => g x && f x) l.
Proof.
  induction l as [|x l IH]; simpl; [reflexivity|].
  destruct (g x); simpl; [destruct (f x)|]; rewrite IH; reflexivity.
Qed.

Lemma counters_of_kind_own (e : element) (kind : string) :
  counters_of_kind e kind = own_counters e kind.
Proof.
  unfold counters_of_kind, own_counters, findall_children.
  rewrite filter_twice. reflexivity.
Qed.

Lemma reads_int_attr (c : element) (key : string) (n : Z) :
  reads c key n <-> int_attr c key = Ok n.
Proof.
  unfold reads, int_attr, get. destruct (lookup key (attrib c)).
  - reflexivity.
  - split; [intros ->; reflexivity | intros H; injection H as <-; reflexivity].
Qed.

Lemma counts_nothing_empty (c : element) :
  counts_nothing c <-> empty_counter c.
Proof.
  unfold counts_nothing, empty_counter, counts.
  split; intros (cov & mis & H); exists cov, mis;
    rewrite !reads_int_attr in *; tauto.
Qed.

(** C6.  For a node and a counter kind (the argument [line] selects the
    counters whose type is LINE, [branch] those whose type is BRANCH), the
    percentage is what covered / (covered + missed) * 100 evaluates to on
    the counts of the node's counter of that kind when it counts something
    (of the first such counter should the node carry several); for counts
    that are not negative this is a number.  The percentage is 0 when the
    node has no counter of that kind and when its counters of that kind
    count nothing.  The division is never attempted on a zero total. *)
Theorem get_coverage_percent_formula (e : element)
  (counter_type kind : string) :
  (counter_type = "line" /\ kind = "LINE") \/
  (counter_type = "branch" /\ kind = "BRANCH") ->
  (forall idle c rest covered missed,
      counters_of_kind e kind = idle ++ c :: rest ->
      Forall counts_nothing idle ->
      reads c "covered" covered -> reads c "missed" missed ->
      0 < covered + missed ->
      _get_coverage_percent e counter_type =
        (ratio <- truediv covered (covered + missed) ;;
         Ok (float_mul ratio 100)) /\
      (0 <= covered -> 0 <= missed ->
       exists ratio,
         truediv covered (covered + missed) = Ok ratio /\
         _get_coverage_percent e counter_type = Ok (float_mul ratio 100))) /\
  (counters_of_kind e kind = [] ->
   _get_coverage_percent e counter_type = Ok 0%Q) /\
  (Forall counts_nothing (counters_of_kind e kind) ->
   _get_coverage_percent e counter_type = Ok 0%Q) /\
  _get_coverage_percent e counter_type <> Raise ZeroDivisionError.
Proof.
  intros Hkind.
  assert (Hupper : upper counter_type = kind)
    by (destruct Hkind as [[-> ->]|[-> ->]]; reflexivity).
  clear Hkind. rewrite counters_of_kind_own.
  assert (Hidle : Forall counts_nothing (own_counters e kind) ->
                  _get_coverage_percent e counter_type = Ok 0%Q).
  { intros Hall. unfold _get_coverage_percent.
    rewrite coverage_percent_loop_filter, Hupper.
    fold (own_counters e kind).
    rewrite <- (app_nil_r (own_counters e kind)).
    rewrite coverage_percent_loop_idle; [reflexivity| |].
    - unfold own_counters. apply Forall_forall. intros c Hc.
      apply filter_In in Hc. apply Hc.
    - apply Forall_forall. intros c Hc. apply counts_nothing_empty.
      rewrite Forall_forall in Hall. apply Hall. exact Hc. }
  split; [|split; [|split]].
  - intros idle c rest covered missed Hown Hempty Hcov Hmis Hpos.
    apply reads_int_attr in Hcov, Hmis.
    assert (Hvalue : _get_coverage_percent e counter_type =
                     (ratio <- truediv covered (covered + missed) ;;
                      Ok (float_mul ratio 100))).
    { unfold _get_coverage_percent.
      rewrite coverage_percent_loop_filter, Hupper.
      fold (own_counters e kind). rewrite Hown.
      assert (Hkinds : Forall (fun c0 => type_is c0 kind = true)
                         (idle ++ c :: rest)).
      { rewrite <- Hown. unfold own_counters. apply Forall_forall.
        intros c0 Hc0. apply filter_In in Hc0. apply Hc0. }
      apply Forall_app in Hkinds as [Hk1 Hk2].
      rewrite coverage_percent_loop_idle;
        [|exact Hk1
         |apply Forall_forall; intros c0 Hc0; apply counts_nothing_empty;
          rewrite Forall_forall in Hempty; apply Hempty; exact Hc0].
      inversion Hk2 as [|? ? Hc _]; subst.
      cbn [coverage_percent_loop]. rewrite Hc, Hcov, Hmis. cbn [bind].
      destruct (Z.ltb_spec 0 (covered + missed)) as [_|Hle]; [|lia].
      reflexivity. }
    split; [exact Hvalue|].
    intros Hc0 Hm0. eexists. split; [apply truediv_ok; lia|].
    rewrite Hvalue, truediv_ok by lia. reflexivity.
  - intros Hnone. apply Hidle. rewrite Hnone. constructor.
  - exact Hidle.
  - apply coverage_percent_loop_no_division_error.
Qed.

(** The percentage of the sample method with 3 covered and 2 missed
    lines. *)
Lemma get_coverage_percent_formula_witness :
  _get_coverage_percent Samples.render_method "line" = Ok 60%Q.
Proof.
  destruct (get_coverage_percent_formula Samples.render_method "line" "LINE")
    as (Hlive & _).
  - left. split; reflexivity.
  - destruct (Hlive [] (Samples.counter "LINE" "3" "2") [] 3 2)
      as (Hvalue & _).
    + reflexivity.
    + constructor.
    + reflexivity.
    + reflexivity.
    + lia.
    + rewrite Hvalue. vm_compute. reflexivity.
Defined.

End CoveragePercentClaim.

(** ** The traversal of the report (lines 45-103) *)

Section Traversal.

Import ET CoverageParser Terms.

Lemma for_each_map {A B S : Type} (h : A -> B) (body : S -> B -> result S)
  (xs : list A) (s : S) :
  for_each (map h xs) body s = for_each xs (fun s0 x => body s0 (h x)) s.
Proof.
  revert s; induction xs as [|x xs IH]; intros s; simpl; [reflexivity|].
  destruct (body s (h x)) as [s'|e]; simpl; [apply IH | reflexivity].
Qed.

(** A loop on a state seen through a projection. *)
Lemma for_each_project {A S T : Type} (proj : S -> T)
  (f : S -> A -> result S) (g : T -> A -> result T) (xs : list A) :
  (forall s x s', f s x = Ok s' -> g (proj s) x = Ok (proj s')) ->
  forall s s', for_each xs f s = Ok s' ->
               for_each xs g (proj s) = Ok (proj s').
Proof.
  intros Hstep. induction xs as [|x xs IH]; intros s s' Hrun; simpl in *.
  - injection Hrun as <-. reflexivity.
  - apply bind_ok in Hrun as (s1 & Hx & Hrest).
    rewrite (Hstep _ _ _ Hx). simpl. apply IH. exact Hrest.
Qed.

Lemma class_step_gaps (package_name : string) (st : scan)
  (cls : element) (st' : scan) :
  class_step package_name st cls = Ok st' ->
  class_gaps package_name (scan_gaps st) cls = Ok (scan_gaps st').
Proof.
  unfold class_step, class_gaps. intros H.
  apply bind_ok in H as (gaps' & Hgaps & H).
  apply bind_ok in H as (cl & _ & H).
  apply bind_ok in H as (cb & _ & H).
  injection H as <-. exact Hgaps.
Qed.

Lemma package_step_gaps (st : scan) (package : element) (st' : scan) :
  package_step st package = Ok st' ->
  package_gaps (scan_gaps st) package = Ok (scan_gaps st').
Proof.
  unfold package_step, package_gaps.
  apply for_each_project. intros s x s'. apply class_step_gaps.
Qed.

Lemma discovered_gaps_unfold (root : element) :
  discovered_gaps root =
  for_each (findall_below root "package") package_gaps [].
Proof.
  unfold discovered_gaps, visited_methods.
  rewrite for_each_flat_map. apply for_each_ext. intros gaps package _.
  rewrite for_each_flat_map. unfold package_gaps.
  apply for_each_ext. intros gaps' cls _.
  rewrite for_each_map. reflexivity.
Qed.

Lemma scan_packages_gaps (root : element) (st : scan) :
  scan_packages root = Ok st -> discovered_gaps root = Ok (scan_gaps st).
Proof.
  intros H. rewrite discovered_gaps_unfold.
  apply (for_each_project scan_gaps package_step package_gaps _
           package_step_gaps initial_scan st H).
Qed.

Lemma counter_step_gaps (st st' : scan) (counter : element) :
  counter_step st counter = Ok st' -> scan_gaps st' = scan_gaps st.
Proof.
  unfold counter_step.
  destruct (String.eqb _ "LINE");
    [|destruct (String.eqb _ "BRANCH")]; intros H.
  - apply bind_ok in H as ([p|] & _ & H); injection H as <-; reflexivity.
  - apply bind_ok in H as ([p|] & _ & H); injection H as <-; reflexivity.
  - injection H as <-; reflexivity.
Qed.

Lemma scan_counters_gaps (root : element) (st st' : scan) :
  scan_counters root st = Ok st' -> scan_gaps st' = scan_gaps st.
Proof.
  unfold scan_counters.
  apply (for_each_invariant counter_step
           (fun s => scan_gaps s = scan_gaps st)); [|reflexivity].
  intros s x s' _ Hs Hx. rewrite (counter_step_gaps _ _ _ Hx). exact Hs.
Qed.

(** The report holds the discovered gaps, sorted. *)
Lemma parse_report_gaps (root : element) (report : CoverageReport) :
  parse_report root = Ok report ->
  exists discovered,
    discovered_gaps root = Ok discovered /\
    gaps report = sort_by_line_coverage discovered.
Proof.
  unfold parse_report. intros H.
  apply bind_ok in H as (st & Hst & H).
  apply bind_ok in H as (st' & Hst' & H).
  injection H as <-. simpl.
  exists (scan_gaps st). split; [apply scan_packages_gaps; exact Hst|].
  rewrite (scan_counters_gaps _ _ _ Hst'). reflexivity.
Qed.

(** The visited methods are the [method] elements below a [class] element
    below a [package] element below the root. *)
Lemma visited_methods_spec (root : element) (pn full : string) (m : element) :
  In (pn, full, m) (visited_methods root) <->
  exists package cls,
    In package (findall_below root "package") /\
    In cls (findall_below package "class") /\
    In m (findall_below cls "method") /\
    pn = get_default package "name" "" /\
    full = full_class_name pn (get_default cls "name" "").
Proof.
  unfold visited_methods. rewrite in_flat_map. split.
  - intros (package & Hpackage & Hin).
    apply in_flat_map in Hin as (cls & Hcls & Hin).
    apply in_map_iff in Hin as (m' & Heq & Hm).
    injection Heq as <- <- <-.
    exists package, cls. repeat split; assumption.
  - intros (package & cls & Hpackage & Hcls & Hm & -> & ->).
    exists package. split; [exact Hpackage|].
    apply in_flat_map. exists cls. split; [exact Hcls|].
    apply in_map_iff. exists m. split; [reflexivity | exact Hm].
Qed.

(** What one visit does to the list of gaps. *)
Lemma visit_ok (acc out : list CoverageGap) (v : string * string * element) :
  visit acc v = Ok out ->
  exists p, _get_coverage_percent (snd v) "line" = Ok p /\
    ((below_full v = true /\ (p < 100)%Q /\
      exists g, out = acc ++ [g] /\ gap_of v g /\ line_coverage g = p) \/
     (below_full v = false /\ (100 <= p)%Q /\ out = acc)).
Proof.
  destruct v as [[pn full] m]. unfold visit, method_step, below_full.
  cbn [snd]. intros H.
  apply bind_ok in H as (line & Hline & H).
  apply bind_ok in H as (branch & Hbranch & H).
  exists line. split; [exact Hline|]. rewrite Hline.
  destruct (float_lt line 100) eqn:Hlt.
  - apply bind_ok in H as (unc & Hunc & H). injection H as <-.
    left. split; [reflexivity|]. split; [apply float_lt_iff; exact Hlt|].
    eexists; split; [reflexivity|]. split; [|reflexivity].
    exists line, branch, unc. repeat split; assumption.
  - injection H as <-. right. split; [reflexivity|].
    split; [apply float_lt_false_iff; exact Hlt | reflexivity].
Qed.

Lemma visits_ok (vs : list (string * string * element)) :
  forall acc out,
    for_each vs visit acc = Ok out ->
    exists fresh,
      out = acc ++ fresh /\
      length fresh = length (filter below_full vs) /\
      (forall g, In g fresh ->
         (line_coverage g < 100)%Q /\ exists v, In v vs /\ gap_of v g) /\
      (forall v, In v vs ->
         exists p, _get_coverage_percent (snd v) "line" = Ok p /\
           ((p < 100)%Q -> exists g, In g fresh /\ gap_of v g)).
Proof.
  induction vs as [|v vs IH]; intros acc out Hrun; simpl in Hrun.
  - injection Hrun as <-. exists []. rewrite app_nil_r.
    split; [reflexivity|]. split; [reflexivity|].
    split; intros ? [].
  - apply bind_ok in Hrun as (mid & Hv & Hrest).
    apply IH in Hrest as (fresh & -> & Hlen & Hin & Hall).
    apply visit_ok in Hv as (p & Hp & [(Hb & Hlt & g & -> & Hg & Hgp) |
                                       (Hb & Hge & ->)]).
    + exists (g :: fresh). rewrite <- app_assoc. simpl. rewrite Hb. simpl.
      split; [reflexivity|]. split; [f_equal; exact Hlen|]. split.
      * intros g' [<-|Hg'].
        -- split; [rewrite Hgp; exact Hlt|].
           exists v; split; [left; reflexivity | exact Hg].
        -- destruct (Hin g' Hg') as (Hlt' & v' & Hv' & Hgv').
           split; [exact Hlt'|]. exists v'; split; [right; exact Hv' | exact Hgv'].
      * intros v' [<-|Hv'].
        -- exists p. split; [exact Hp|]. intros _.
           exists g; split; [left; reflexivity | exact Hg].
        -- destruct (Hall v' Hv') as (p' & Hp' & Hgap).
           exists p'. split; [exact Hp'|]. intros Hlt'.
           destruct (Hgap Hlt') as (g' & Hg' & Hgv').
           exists g'; split; [right; exact Hg' | exact Hgv'].
    + exists fresh. simpl. rewrite Hb.
      split; [reflexivity|]. split; [exact Hlen|]. split.
      * intros g' Hg'. destruct (Hin g' Hg') as (Hlt' & v' & Hv' & Hgv').
        split; [exact Hlt'|]. exists v'; split; [right; exact Hv' | exact Hgv'].
      * intros v' [<-|Hv'].
        -- exists p. split; [exact Hp|]. intros Hlt.
           exfalso. apply (Qlt_not_le _ _ Hlt). exact Hge.
        -- apply Hall. exact Hv'.
Qed.

End Traversal.

(** ** The sort of the gaps (line 106) *)

Section SortFacts.

Import CoverageParser Terms.

Lemma insert_gap_perm (g : CoverageGap) (l : list CoverageGap) :
  Permutation (g :: l) (insert_gap g l).
Proof.
  induction l as [|h l IH]; simpl; [apply Permutation_refl|].
  destruct (float_lt (line_coverage h) (line_coverage g)).
  - apply perm_trans with (h :: g :: l); [apply perm_swap|].
    apply perm_skip. exact IH.
  - apply Permutation_refl.
Qed.

Lemma sort_perm (l : list CoverageGap) :
  Permutation l (sort_by_line_coverage l).
Proof.
  induction l as [|g l IH]; simpl; [constructor|].
  apply perm_trans with (g :: sort_by_line_coverage l).
  - apply perm_skip. exact IH.
  - apply insert_gap_perm.
Qed.

Lemma insert_gap_sorted (g : CoverageGap) (l : list CoverageGap) :
  StronglySorted line_le l -> StronglySorted line_le (insert_gap g l).
Proof.
  induction l as [|h l IH]; intros Hs; simpl.
  - constructor; constructor.
  - inversion Hs as [|? ? Hl Hh]; subst.
    destruct (float_lt (line_coverage h) (line_coverage g)) eqn:Hlt.
    + constructor; [apply IH; exact Hl|].
      apply Forall_forall. intros x Hx.
      apply (Permutation_in _ (Permutation_sym (insert_gap_perm g l))) in Hx.
      destruct Hx as [<-|Hx].
      * apply Qlt_le_weak. apply float_lt_iff. exact Hlt.
      * rewrite Forall_forall in Hh. apply Hh. exact Hx.
    + apply float_lt_false_iff in Hlt.
      constructor; [exact Hs|].
      constructor; [exact Hlt|].
      apply Forall_forall. intros x Hx. rewrite Forall_forall in Hh.
      unfold line_le. apply Qle_trans with (line_coverage h);
        [exact Hlt | apply Hh; exact Hx].
Qed.

Lemma sort_sorted (l : list CoverageGap) :
  StronglySorted line_le (sort_by_line_coverage l).
Proof.
  induction l as [|g l IH]; simpl; [constructor|].
  apply insert_gap_sorted. exact IH.
Qed.

(** Inserting a gap puts it in front of the gaps of equal percentage and
    moves no other gap. *)
Lemma insert_gap_with_line (v : Q) (g : CoverageGap) (l : list CoverageGap) :
  with_line v (insert_gap g l) = with_line v (g :: l).
Proof.
  induction l as [|h l IH]; [reflexivity|].
  simpl insert_gap.
  destruct (float_lt (line_coverage h) (line_coverage g)) eqn:Hlt;
    [|reflexivity].
  apply float_lt_iff in Hlt.
  unfold with_line in *. simpl in *. rewrite IH.
  destruct (Qeq_bool (line_coverage g) v) eqn:Hg; [|reflexivity].
  destruct (Qeq_bool (line_coverage h) v) eqn:Hh; [|reflexivity].
  apply Qeq_bool_iff in Hg, Hh. exfalso.
  apply (Qlt_irrefl v). rewrite <- Hh at 1. rewrite <- Hg. exact Hlt.
Qed.

Lemma sort_with_line (v : Q) (l : list CoverageGap) :
  with_line v (sort_by_line_coverage l) = with_line v l.
Proof.
  induction l as [|g l IH]; [reflexivity|].
  simpl sort_by_line_coverage. rewrite insert_gap_with_line.
  unfold with_line in *. simpl. rewrite IH. reflexivity.
Qed.

End SortFacts.

(** ** The parsed report *)

Section ParsedReport.

Import ET CoverageParser Terms.

(** Where the gaps of a parsed report come from. *)
Lemma report_gap_origin (root : element) (report : CoverageReport) :
  parse_report root = Ok report ->
  forall g, In g (gaps report) ->
    (line_coverage g < 100)%Q /\
    exists v, In v (visited_methods root) /\ gap_of v g.
Proof.
  intros Hparse g Hg.
  apply parse_report_gaps in Hparse as (discovered & Hdisc & Hgaps).
  unfold discovered_gaps in Hdisc.
  apply visits_ok in Hdisc as (fresh & Hfresh & _ & Hin & _).
  simpl in Hfresh. subst fresh. apply Hin.
  rewrite Hgaps in Hg.
  apply (Permutation_in _ (Permutation_sym (sort_perm discovered))).
  exact Hg.
Qed.

(** C3.  In a parsed report, a visited method has a gap exactly when its
    own line percentage is below 100: every gap belongs to a visited
    method and has a line percentage below 100, every visited method below
    100 has its gap, a method at 100 or above has none, and there are as
    many gaps as visited methods below 100. *)
Theorem gap_iff_line_below_100 (root : element) (report : CoverageReport) :
  parse_report root = Ok report ->
  (forall v, In v (visited_methods root) ->
     exists p, _get_coverage_percent (snd v) "line" = Ok p /\
       ((p < 100)%Q <-> exists g, In g (gaps report) /\ gap_of v g)) /\
  (forall g, In g (gaps report) ->
     (line_coverage g < 100)%Q /\
     exists v, In v (visited_methods root) /\ gap_of v g) /\
  length (gaps report) = length (filter below_full (visited_methods root)).
Proof.
  intros Hparse. pose proof (report_gap_origin root report Hparse) as Horigin.
  apply parse_report_gaps in Hparse as (discovered & Hdisc & Hgaps).
  unfold discovered_gaps in Hdisc.
  apply visits_ok in Hdisc as (fresh & Hfresh & Hlen & _ & Hall).
  simpl in Hfresh. subst fresh.
  split; [|split].
  - intros v Hv. destruct (Hall v Hv) as (p & Hp & Hgap).
    exists p. split; [exact Hp|]. split.
    + intros Hlt. destruct (Hgap Hlt) as (g & Hg & Hgv).
      exists g. split; [|exact Hgv]. rewrite Hgaps.
      apply (Permutation_in _ (sort_perm discovered)). exact Hg.
    + intros (g & Hg & Hgv).
      destruct (Horigin g Hg) as (Hlt & _).
      destruct v as [[pn full] m]. cbn [snd] in Hp.
      destruct Hgv as (line & branch & unc & Hline & _ & _ & ->).
      rewrite Hline in Hp. injection Hp as <-. exact Hlt.
  - exact Horigin.
  - rewrite <- Hlen, Hgaps. symmetry.
    apply Permutation_length. apply sort_perm.
Qed.

(** Of the four sample methods, the three below 100 have a gap. *)
Lemma gap_iff_line_below_100_witness :
  exists report,
    parse_report Samples.three_method_report = Ok report /\
    length (gaps report) = 3%nat.
Proof.
  destruct (parse_report Samples.three_method_report) as [report|e] eqn:Hrun.
  - exists report. split; [reflexivity|].
    destruct (gap_iff_line_below_100 _ _ Hrun) as (_ & _ & Hlen).
    rewrite Hlen. reflexivity.
  - vm_compute in Hrun. discriminate Hrun.
Defined.

(** C5.  The gaps of a parsed report are the discovered gaps rearranged in
    non-decreasing order of line percentage, and the gaps of any one
    percentage stand in the order of their discovery. *)
Theorem gaps_sorted_stable (root : element) (report : CoverageReport) :
  parse_report root = Ok report ->
  exists discovered,
    discovered_gaps root = Ok discovered /\
    Permutation discovered (gaps report) /\
    StronglySorted line_le (gaps report) /\
    forall v, with_line v (gaps report) = with_line v discovered.
Proof.
  intros Hparse.
  apply parse_report_gaps in Hparse as (discovered & Hdisc & ->).
  exists discovered. split; [exact Hdisc|].
  split; [apply sort_perm|].
  split; [apply sort_sorted|].
  intros v. apply sort_with_line.
Qed.

(** The two half-covered sample methods keep their order. *)
Lemma gaps_sorted_stable_witness :
  exists report,
    parse_report Samples.three_method_report = Ok report /\
    map method_name (with_line 50 (gaps report)) =
      [Some "first()V"; Some "second()V"].
Proof.
  destruct (parse_report Samples.three_method_report) as [report|e] eqn:Hrun.
  - exists report. split; [reflexivity|].
    destruct (gaps_sorted_stable _ _ Hrun) as (discovered & Hd & _ & _ & Hst).
    rewrite Hst. vm_compute in Hd. injection Hd as <-. reflexivity.
  - vm_compute in Hrun. discriminate Hrun.
Defined.

(** The counters pass leaves in [scan_line] the percentage of the last
    LINE counter, anywhere below the root, that counts something. *)
Lemma counter_step_line_kept (st st' : scan) (c : element) :
  (get_default c "type" "" = "LINE" -> counter_percent c = Ok None) ->
  counter_step st c = Ok st' -> scan_line st' = scan_line st.
Proof.
  unfold counter_step. intros Hidle.
  destruct (String.eqb_spec (get_default c "type" "") "LINE") as [E|_].
  - rewrite (Hidle E). cbn [bind]. intros H; injection H as <-. reflexivity.
  - destruct (String.eqb _ "BRANCH"); intros H.
    + apply bind_ok in H as ([p|] & _ & H); injection H as <-; reflexivity.
    + injection H as <-; reflexivity.
Qed.

Lemma total_line_follows_last_counter (root : element)
  (report : CoverageReport) (before after : list element) (c : element)
  (p : Q) :
  parse_report root = Ok report ->
  findall_below root "counter" = before ++ c :: after ->
  get_default c "type" "" = "LINE" ->
  counter_percent c = Ok (Some p) ->
  (forall c', In c' after -> get_default c' "type" "" = "LINE" ->
              counter_percent c' = Ok None) ->
  total_line_coverage report = p.
Proof.
  unfold parse_report. intros H Hsplit Hkind Hp Hafter.
  apply bind_ok in H as (st & _ & H).
  apply bind_ok in H as (st' & Hst' & H).
  injection H as <-. cbn [total_line_coverage].
  unfold scan_counters in Hst'. rewrite Hsplit, for_each_app in Hst'.
  apply bind_ok in Hst' as (s1 & _ & Hrest).
  cbn [for_each] in Hrest.
  apply bind_ok in Hrest as (s2 & Hc & Hrest).
  assert (Hs2 : scan_line s2 = p).
  { unfold counter_step in Hc. rewrite Hkind in Hc. cbn in Hc.
    rewrite Hp in Hc. cbn [bind] in Hc. injection Hc as <-. reflexivity. }
  apply (for_each_invariant counter_step (fun s => scan_line s = p) after)
    with (s := s2); [|exact Hs2|exact Hrest].
  intros s x s' Hx Hs Hstep.
  rewrite (counter_step_line_kept _ _ _ (Hafter x Hx) Hstep). exact Hs.
Qed.

(** C1.  On the sample report with two classes covered at 90 and 50 per
    cent and no counter under the report element, the total line
    percentage is 50: the percentage of the last LINE counter in the
    document, not the maximum over the classes. *)
Theorem total_line_not_class_maximum :
  parse_report Samples.two_class_report =
    Ok {| total_line_coverage := 50; total_branch_coverage := 0;
          gaps := [] |} /\
  findall_children Samples.two_class_report "counter" = [] /\
  visited_classes Samples.two_class_report =
    [Samples.class_a; Samples.class_b] /\
  _get_coverage_percent Samples.class_a "line" = Ok 90%Q /\
  _get_coverage_percent Samples.class_b "line" = Ok 50%Q.
Proof. repeat split. Qed.

(** Every gap carries the name attribute of its package as it stands. *)
Lemma gap_package_name_verbatim (root : element) (report : CoverageReport) :
  parse_report root = Ok report ->
  forall g, In g (gaps report) ->
    exists package, In package (findall_below root "package") /\
      package_name g = get_default package "name" "".
Proof.
  intros Hparse g Hg.
  destruct (report_gap_origin _ _ Hparse g Hg) as (_ & [[pn full] m] & Hv & Hgv).
  destruct Hgv as (line & branch & unc & _ & _ & _ & ->). cbn [package_name make_gap].
  unfold visited_methods in Hv.
  apply in_flat_map in Hv as (package & Hpackage & Hv).
  exists package. split; [exact Hpackage|].
  apply in_flat_map in Hv as (cls & _ & Hv).
  apply in_map_iff in Hv as (m' & Heq & _).
  injection Heq as <- _ _. reflexivity.
Qed.

(** C9.  The report with one package [com/acme], one class [Widget] and
    one method [render()V] covered at 3 of 5 lines yields one gap whose
    class name is dotted and whose package name still has the slash. *)
Theorem package_name_keeps_slash :
  parse_report Samples.widget_report =
    Ok {| total_line_coverage := 60; total_branch_coverage := 0;
          gaps :=
            [ {| class_name := "com.acme.Widget";
                 method_name := Some "render()V";
                 package_name := "com/acme";
                 line_coverage := 60;
                 branch_coverage := 0;
                 uncovered_lines := [] |} ] |}.
Proof. reflexivity. Qed.

End ParsedReport.

(** ** The generator (test_generator.py, lines 22-60) *)

Section GeneratorFacts.

Import TestGenerator GenTerms.

Lemma for_each_collect {A B : Type} (body : list B -> A -> result (list B))
  (f : A -> list B) (xs : list A) :
  (forall acc x, In x xs -> body acc x = Ok (acc ++ f x)) ->
  forall acc, for_each xs body acc = Ok (acc ++ flat_map f xs).
Proof.
  induction xs as [|x xs IH]; intros Hbody acc; simpl.
  - rewrite app_nil_r. reflexivity.
  - rewrite (Hbody acc x (or_introl eq_refl)). simpl.
    rewrite IH by (intros acc' y Hy; apply Hbody; right; exact Hy).
    rewrite app_assoc. reflexivity.
Qed.

Lemma flat_map_singleton {A B : Type} (f : A -> B) (xs : list A) :
  flat_map (fun x => [f x]) xs = map f xs.
Proof. induction xs as [|x xs IH]; simpl; [|rewrite IH]; reflexivity. Qed.

Lemma first_item_split (sep : ascii) (s : string) :
  first_item (split sep s) = up_to sep s.
Proof.
  induction s as [|a s IH]; simpl; [reflexivity|].
  destruct (Ascii.eqb a sep); [reflexivity|].
  destruct (split sep s) as [|piece pieces]; simpl in *; rewrite <- IH;
    reflexivity.
Qed.

Lemma range_length (n : Z) : length (range n) = Z.to_nat n.
Proof. unfold range. rewrite length_map, length_seq. reflexivity. Qed.

Lemma range_nth (n i : Z) :
  0 <= i < n -> nth_error (range n) (Z.to_nat i) = Some i.
Proof.
  intros Hi. unfold range.
  rewrite nth_error_map, nth_error_seq.
  destruct (Nat.ltb_spec (Z.to_nat i) (Z.to_nat n)) as [_|Hge]; [|lia].
  simpl. f_equal. lia.
Qed.

Lemma range_nonpositive (n : Z) : n <= 0 -> range n = [].
Proof.
  intros Hn. unfold range. replace (Z.to_nat n) with 0%nat by lia. reflexivity.
Qed.

Lemma range_positive (n : Z) : 0 < n -> exists rest, range n = 0 :: rest.
Proof.
  intros Hn. unfold range.
  destruct (Z.to_nat n) as [|k] eqn:Hk; [lia|].
  simpl. eexists; reflexivity.
Qed.

Lemma generate_test_code_some (gap : CoverageParser.CoverageGap)
  (signature : string) (i : Z) :
  CoverageParser.method_name gap = Some signature ->
  _generate_test_code gap i =
    Ok (case_body i (bare_name signature)
          (simple_name (CoverageParser.class_name gap))).
Proof.
  intros Hsig. unfold _generate_test_code, case_body. rewrite Hsig.
  cbn [split_attr bind]. fold (bare_name signature).
  fold (simple_name (CoverageParser.class_name gap)).
  destruct (i =? 0); [reflexivity|]. destruct (i =? 1); reflexivity.
Qed.


Lemma test_step_some (gap : CoverageParser.CoverageGap) (signature : string)
  (tests : list GeneratedTest) (i : Z) :
  CoverageParser.method_name gap = Some signature ->
  test_step gap (_get_test_class_name (CoverageParser.class_name gap)) tests i
  = Ok (tests ++ [generated_test gap signature i]).
Proof.
  intros Hsig. unfold test_step.
  rewrite (generate_test_code_some gap signature i Hsig).
  rewrite Hsig. reflexivity.
Qed.

Lemma tests_for_method_some (gap : CoverageParser.CoverageGap)
  (signature : string) (n : Z) :
  CoverageParser.method_name gap = Some signature ->
  _generate_tests_for_method gap n =
    Ok (map (generated_test gap signature) (range n)).
Proof.
  intros Hsig. unfold _generate_tests_for_method.
  rewrite (for_each_collect _ (fun i => [generated_test gap signature i])).
  - rewrite flat_map_singleton. reflexivity.
  - intros acc i _. apply test_step_some. exact Hsig.
Qed.

Lemma tests_for_method_none (gap : CoverageParser.CoverageGap) (n : Z) :
  CoverageParser.method_name gap = None -> 0 < n ->
  _generate_tests_for_method gap n = Raise AttributeError.
Proof.
  intros Hnone Hn. unfold _generate_tests_for_method.
  destruct (range_positive n Hn) as (rest & ->).
  cbn [for_each]. unfold test_step at 1. rewrite Hnone. reflexivity.
Qed.

Lemma tests_for_method_nonpositive (gap : CoverageParser.CoverageGap)
  (n : Z) :
  n <= 0 -> _generate_tests_for_method gap n = Ok [].
Proof.
  intros Hn. unfold _generate_tests_for_method.
  rewrite range_nonpositive by exact Hn. reflexivity.
Qed.

Lemma tests_of_nonpositive (gap : CoverageParser.CoverageGap) (n : Z) :
  n <= 0 -> tests_of n gap = [].
Proof.
  intros Hn. unfold tests_of. rewrite range_nonpositive by exact Hn.
  destruct (CoverageParser.method_name gap); reflexivity.
Qed.

Lemma tests_for_method_ok (gap : CoverageParser.CoverageGap) (n : Z) :
  has_signature gap \/ n <= 0 ->
  _generate_tests_for_method gap n = Ok (tests_of n gap).
Proof.
  intros [Hsig|Hn].
  - unfold has_signature in Hsig. unfold tests_of.
    destruct (CoverageParser.method_name gap) as [signature|] eqn:E;
      [|contradiction].
    apply tests_for_method_some. exact E.
  - rewrite tests_of_nonpositive by exact Hn.
    apply tests_for_method_nonpositive. exact Hn.
Qed.

Lemma tests_of_length (gap : CoverageParser.CoverageGap) (n : Z) :
  has_signature gap -> length (tests_of n gap) = Z.to_nat n.
Proof.
  unfold has_signature, tests_of. intros Hsig.
  destruct (CoverageParser.method_name gap); [|contradiction].
  rewrite length_map. apply range_length.
Qed.

(** With a signature on every considered gap, or nothing asked for, the
    generator returns the entries of the considered gaps in order. *)
Lemma generate_tests_ok (gaps : list CoverageParser.CoverageGap) (n : Z) :
  Forall has_signature (firstn 10 gaps) \/ n <= 0 ->
  generate_tests gaps n = Ok (flat_map (tests_of n) (firstn 10 gaps)).
Proof.
  intros Hok. unfold generate_tests.
  rewrite (for_each_collect _ (tests_of n)); [reflexivity|].
  intros acc gap Hgap. unfold gap_step.
  rewrite tests_for_method_ok; [reflexivity|].
  destruct Hok as [Hall|Hn]; [left|right; exact Hn].
  rewrite Forall_forall in Hall. apply Hall. exact Hgap.
Qed.

Lemma flat_map_length_const {A B : Type} (f : A -> list B) (k : nat)
  (xs : list A) :
  Forall (fun x => length (f x) = k) xs ->
  length (flat_map f xs) = (length xs * k)%nat.
Proof.
  induction 1 as [|x xs Hx _ IH]; simpl; [reflexivity|].
  rewrite length_app, Hx, IH. reflexivity.
Qed.

(** The count of section 8, for gaps that carry a signature. *)
Lemma generate_tests_count (gaps : list CoverageParser.CoverageGap) (n : Z) :
  0 <= n ->
  Forall has_signature (firstn 10 gaps) ->
  generate_tests gaps n = generate_tests (firstn 10 gaps) n /\
  exists tests,
    generate_tests gaps n = Ok tests /\
    tests = flat_map (tests_of n) (firstn 10 gaps) /\
    Z.of_nat (length tests) = Z.min 10 (Z.of_nat (length gaps)) * n.
Proof.
  intros Hn Hall. split.
  - unfold generate_tests. rewrite firstn_firstn. reflexivity.
  - eexists. split; [apply generate_tests_ok; left; exact Hall|].
    split; [reflexivity|].
    rewrite (flat_map_length_const _ (Z.to_nat n)).
    + rewrite length_firstn. lia.
    + apply Forall_forall. intros g Hg. apply tests_of_length.
      rewrite Forall_forall in Hall. apply Hall. exact Hg.
Qed.

Lemma gaps_loop_raises (n : Z) (gs : list CoverageParser.CoverageGap) :
  0 < n ->
  Exists (fun g => CoverageParser.method_name g = None) gs ->
  forall acc, for_each gs (gap_step n) acc = Raise AttributeError.
Proof.
  intros Hn. induction gs as [|g gs IH]; intros Hex acc.
  - inversion Hex.
  - cbn [for_each]. unfold gap_step at 1.
    destruct (CoverageParser.method_name g) as [signature|] eqn:Hsig.
    + rewrite (tests_for_method_some g signature n Hsig). cbn [bind].
      apply IH. inversion Hex as [? ? Hg|? ? Hrest]; subst;
        [congruence | exact Hrest].
    + rewrite (tests_for_method_none g n Hsig Hn). reflexivity.
Qed.

End GeneratorFacts.

Section GeneratorClaims.

Import TestGenerator GenTerms.

Lemma string_app_inv_head (s a b : string) :
  (s ++ a)%string = (s ++ b)%string -> a = b.
Proof.
  induction s as [|c s IH]; simpl; intros H; [exact H|].
  injection H as H. apply IH. exact H.
Qed.

Lemma str_of_int_inj (a b : Z) : str_of_int a = str_of_int b -> a = b.
Proof.
  unfold str_of_int. intros H. apply to_int_inj.
  assert (Hnn : forall z, Z.to_int z <> Decimal.Pos Decimal.Nil /\
                          Z.to_int z <> Decimal.Neg Decimal.Nil).
  { intros [|p|p]; simpl; split; try discriminate;
      intros E; injection E as E; exact (DecimalPos.Unsigned.to_uint_nonnil p E). }
  assert (Hsome : Some (Z.to_int a) = Some (Z.to_int b)).
  { rewrite <- (NilZero.isi (Z.to_int a)) by apply Hnn.
    rewrite <- (NilZero.isi (Z.to_int b)) by apply Hnn.
    rewrite H. reflexivity. }
  injection Hsome as E. exact E.
Qed.

Lemma tests_for_method_nth (gap : CoverageParser.CoverageGap)
  (signature : string) (n i : Z) :
  CoverageParser.method_name gap = Some signature ->
  0 <= i < n ->
  exists tests,
    _generate_tests_for_method gap n = Ok tests /\
    nth_error tests (Z.to_nat i) = Some (generated_test gap signature i).
Proof.
  intros Hsig Hi. eexists. split; [apply tests_for_method_some; exact Hsig|].
  rewrite nth_error_map, (range_nth n i Hi). reflexivity.
Qed.

(** C2, as the code has it.  For a gap that carries a signature and a case
    index [i] below the number of tests asked for, the name of the entry
    at [i] is [test], then the text of the signature before its first
    parenthesis with its first character upper-cased and its other
    characters lower-cased, then [_Case] and the decimal of [i + 1]. *)
Theorem test_method_name_format (gap : CoverageParser.CoverageGap)
  (signature : string) (n i : Z) :
  CoverageParser.method_name gap = Some signature ->
  0 <= i < n ->
  exists tests t,
    _generate_tests_for_method gap n = Ok tests /\
    nth_error tests (Z.to_nat i) = Some t /\
    test_method_name t =
      ("test"
       ++ match up_to "("%char signature with
          | EmptyString => EmptyString
          | String a rest => String (upper_char a) (lower rest)
          end
       ++ "_Case" ++ str_of_int (i + 1))%string.
Proof.
  intros Hsig Hi.
  destruct (tests_for_method_nth gap signature n i Hsig Hi) as (tests & Hrun & Hnth).
  exists tests, (generated_test gap signature i).
  split; [exact Hrun|]. split; [exact Hnth|].
  cbn [test_method_name generated_test]. unfold bare_name.
  rewrite first_item_split. reflexivity.
Qed.

(** The first test of the sample gap for [getValue()I]. *)
Lemma test_method_name_format_witness :
  exists tests t,
    _generate_tests_for_method Samples.getValue_gap 1 = Ok tests /\
    nth_error tests 0 = Some t /\
    test_method_name t = "testGetvalue_Case1".
Proof.
  apply (test_method_name_format Samples.getValue_gap "getValue()I" 1 0).
  - reflexivity.
  - lia.
Defined.

(** C2, as section 4.2 rule 4 words it, fails: for [getValue()I] the rule
    gives [testGetValue_Case1], the generator [testGetvalue_Case1]. *)
Lemma test_method_name_lowers_rest :
  exists t,
    _generate_tests_for_method Samples.getValue_gap 1 = Ok [t] /\
    test_method_name t = "testGetvalue_Case1" /\
    spec_test_method_name "getValue()I" 0 = "testGetValue_Case1" /\
    test_method_name t <> spec_test_method_name "getValue()I" 0.
Proof.
  eexists. split; [reflexivity|]. split; [reflexivity|].
  split; [reflexivity|]. discriminate.
Qed.

(** C4.  On a list of one gap without a signature and one test asked for,
    the generator raises, where the count of the claim is 1. *)
Theorem generate_tests_count_fails_on_class_gap :
  generate_tests [Samples.class_level_gap] 1 = Raise AttributeError /\
  Z.min 10 (Z.of_nat (length [Samples.class_level_gap])) * 1 = 1.
Proof. split; reflexivity. Qed.

(** C7.  The generator raises exactly when at least one test is asked for
    and one of the first ten gaps has no signature; it returns otherwise,
    and returns the empty list for no gaps and for no tests. *)
Theorem generate_tests_raises_iff (gaps : list CoverageParser.CoverageGap)
  (n : Z) :
  (0 < n ->
   Exists (fun g => CoverageParser.method_name g = None) (firstn 10 gaps) ->
   generate_tests gaps n = Raise AttributeError) /\
  (Forall has_signature (firstn 10 gaps) \/ n <= 0 ->
   exists tests, generate_tests gaps n = Ok tests) /\
  generate_tests [] n = Ok [] /\
  generate_tests gaps 0 = Ok [].
Proof.
  split; [|split; [|split]].
  - intros Hn Hex. apply gaps_loop_raises; assumption.
  - intros Hok. eexists. apply generate_tests_ok. exact Hok.
  - reflexivity.
  - rewrite generate_tests_ok by (right; lia).
    f_equal. induction (firstn 10 gaps) as [|g gs IH]; [reflexivity|].
    simpl. rewrite IH, tests_of_nonpositive by lia. reflexivity.
Qed.

(** One test for a class-level gap raises [AttributeError]. *)
Lemma generate_tests_raises_iff_witness :
  generate_tests [Samples.class_level_gap] 1 = Raise AttributeError.
Proof.
  destruct (generate_tests_raises_iff [Samples.class_level_gap] 1)
    as (Hraise & _).
  apply Hraise.
  - lia.
  - left. reflexivity.
Defined.



End GeneratorClaims.

(** ** Document assembly (test_generator.py, lines 110-145) *)

Section Assembly.

Import TestGenerator GenTerms.

Lemma unique_tests_snoc (tests : list GeneratedTest) (t : GeneratedTest) :
  unique_tests (tests ++ [t]) =
  dict_set (unique_tests tests) (test_method_name t) t.
Proof. unfold unique_tests. rewrite fold_left_app. reflexivity. Qed.

Lemma dict_set_keys_old {V : Type} (d : list (string * V)) (k : string)
  (v : V) :
  In k (map fst d) -> map fst (dict_set d k v) = map fst d.
Proof.
  induction d as [|[k' v'] d IH]; simpl; intros Hin; [contradiction|].
  destruct (String.eqb_spec k' k) as [E|Hne]; [reflexivity|].
  simpl. f_equal. apply IH. destruct Hin as [E|Hin]; [contradiction|exact Hin].
Qed.

Lemma dict_set_keys_new {V : Type} (d : list (string * V)) (k : string)
  (v : V) :
  ~ In k (map fst d) -> map fst (dict_set d k v) = map fst d ++ [k].
Proof.
  induction d as [|[k' v'] d IH]; simpl; intros Hnin; [reflexivity|].
  destruct (String.eqb_spec k' k) as [E|Hne].
  - exfalso. apply Hnin. left. exact E.
  - simpl. f_equal. apply IH. intros Hin. apply Hnin. right. exact Hin.
Qed.

Lemma assoc_dict_set {V : Type} (d : list (string * V)) (k key : string)
  (v : V) :
  assoc key (dict_set d k v) =
  if String.eqb k key then Some v else assoc key d.
Proof.
  induction d as [|[k' v'] d IH]; simpl.
  - reflexivity.
  - destruct (String.eqb_spec k' k) as [E|Hne]; simpl.
    + subst k'. destruct (String.eqb k key); reflexivity.
    + destruct (String.eqb_spec k' key) as [E'|Hne'].
      * subst k'. destruct (String.eqb_spec k key) as [E''|_];
          [subst; contradiction | reflexivity].
      * exact IH.
Qed.

Lemma in_first_occurrences (x : string) (l : list string) :
  In x (first_occurrences l) <-> In x l.
Proof.
  induction l as [|y l IH]; simpl; [reflexivity|].
  rewrite filter_In, IH. split.
  - intros [E|[Hin _]]; [left; exact E | right; exact Hin].
  - intros [E|Hin]; [left; exact E|].
    destruct (String.eqb_spec x y) as [E|Hne]; [left; symmetry; exact E|].
    right. split; [exact Hin | reflexivity].
Qed.

Lemma first_occurrences_nodup (l : list string) :
  NoDup (first_occurrences l).
Proof.
  induction l as [|y l IH]; simpl; constructor.
  - rewrite filter_In. intros [_ H].
    rewrite String.eqb_refl in H. discriminate H.
  - apply NoDup_filter. exact IH.
Qed.

Lemma first_occurrences_snoc_old (x : string) (l : list string) :
  In x l -> first_occurrences (l ++ [x]) = first_occurrences l.
Proof.
  induction l as [|y l IH]; simpl; intros Hin; [contradiction|].
  f_equal. destruct (String.eqb_spec x y) as [E|Hne].
  - subst y. destruct (in_dec string_dec x l) as [Hl|Hl].
    + rewrite IH by exact Hl. reflexivity.
    + clear IH Hin.
      assert (H : forall m, first_occurrences (m ++ [x]) =
                            first_occurrences m ++
                            (if in_dec string_dec x m then [] else [x])).
      { induction m as [|z m IHm]; simpl; [reflexivity|].
        rewrite IHm, filter_app. f_equal.
        destruct (string_dec z x) as [E|Hne]; simpl.
        - subst z. destruct (in_dec string_dec x m); simpl;
            [reflexivity | rewrite String.eqb_refl; reflexivity].
        - destruct (in_dec string_dec x m); simpl; [reflexivity|].
          destruct (String.eqb_spec x z) as [E|_];
            [subst; contradiction | reflexivity]. }
      rewrite H, filter_app.
      destruct (in_dec string_dec x l); [contradiction|]. simpl.
      rewrite String.eqb_refl. simpl. apply app_nil_r.
  - destruct Hin as [E|Hin]; [subst; contradiction|].
    rewrite IH by exact Hin. reflexivity.
Qed.

Lemma first_occurrences_snoc_new (x : string) (l : list string) :
  ~ In x l -> first_occurrences (l ++ [x]) = first_occurrences l ++ [x].
Proof.
  induction l as [|y l IH]; simpl; intros Hnin; [reflexivity|].
  f_equal. rewrite IH by (intros H; apply Hnin; right; exact H).
  rewrite filter_app. f_equal. simpl.
  destruct (String.eqb_spec x y) as [E|_]; [|reflexivity].
  exfalso. apply Hnin. left. symmetry. exact E.
Qed.

Lemma unique_tests_keys (tests : list GeneratedTest) :
  map fst (unique_tests tests) = first_occurrences (names tests).
Proof.
  induction tests as [|t tests IH] using rev_ind; [reflexivity|].
  rewrite unique_tests_snoc. unfold names in *. rewrite map_app. simpl.
  destruct (in_dec string_dec (test_method_name t)
              (map test_method_name tests)) as [Hin|Hnin].
  - rewrite first_occurrences_snoc_old by exact Hin.
    rewrite dict_set_keys_old; [exact IH|].
    rewrite IH. apply in_first_occurrences. exact Hin.
  - rewrite first_occurrences_snoc_new by exact Hnin.
    rewrite dict_set_keys_new; [rewrite IH; reflexivity|].
    rewrite IH, in_first_occurrences. exact Hnin.
Qed.

Lemma unique_tests_assoc (name : string) (tests : list GeneratedTest) :
  assoc name (unique_tests tests) = last_named name tests.
Proof.
  induction tests as [|t tests IH] using rev_ind; [reflexivity|].
  rewrite unique_tests_snoc, assoc_dict_set.
  unfold last_named in *. rewrite rev_app_distr. simpl.
  destruct (String.eqb (test_method_name t) name); [reflexivity | exact IH].
Qed.

Lemma flat_map_agree {A B : Type} (f g : A -> list B) (l : list A) :
  (forall x, In x l -> f x = g x) -> flat_map f l = flat_map g l.
Proof.
  induction l as [|x l IH]; intros Hfg; simpl; [reflexivity|].
  rewrite (Hfg x (or_introl eq_refl)). f_equal.
  apply IH. intros y Hy. apply Hfg. right. exact Hy.
Qed.

Lemma values_by_keys {V : Type} (d : list (string * V)) :
  NoDup (map fst d) ->
  values d = flat_map (fun k => option_list (assoc k d)) (map fst d).
Proof.
  unfold values.
  induction d as [|[k v] d IH]; simpl; intros Hnd; [reflexivity|].
  inversion Hnd as [|? ? Hnin Hnd']; subst.
  rewrite String.eqb_refl. simpl. f_equal.
  rewrite (IH Hnd').
  apply flat_map_agree. intros k' Hk'.
  destruct (String.eqb_spec k k') as [E|_]; [|reflexivity].
  subst k'. contradiction.
Qed.

Lemma unique_tests_values (tests : list GeneratedTest) :
  values (unique_tests tests) = survivors tests.
Proof.
  rewrite values_by_keys
    by (rewrite unique_tests_keys; apply first_occurrences_nodup).
  rewrite unique_tests_keys. unfold survivors.
  apply flat_map_agree. intros name _. rewrite unique_tests_assoc.
  reflexivity.
Qed.

Lemma join_blank_line_separated (bodies : list string) :
  join (nl ++ nl) bodies = blank_line_separated bodies.
Proof.
  unfold join. induction bodies as [|b l IH]; [reflexivity|].
  destruct l as [|b' rest]; [reflexivity|].
  change (String.concat (nl ++ nl) (b :: b' :: rest))
    with (b ++ (nl ++ nl) ++ String.concat (nl ++ nl) (b' :: rest))%string.
  rewrite IH. reflexivity.
Qed.

Lemma survivors_names (tests : list GeneratedTest) :
  names (survivors tests) = first_occurrences (names tests) /\
  forall t, In t (survivors tests) ->
            last_named (test_method_name t) tests = Some t.
Proof.
  assert (Hfind : forall name t, last_named name tests = Some t ->
                                 test_method_name t = name).
  { intros name t H. unfold last_named in H. apply find_some in H as [_ H].
    apply String.eqb_eq. exact H. }
  assert (Hsome : forall name, In name (names tests) ->
                               exists t, last_named name tests = Some t).
  { intros name Hin. unfold last_named.
    destruct (find _ (rev tests)) as [t|] eqn:E; [exists t; reflexivity|].
    exfalso. unfold names in Hin. apply in_map_iff in Hin as (t & Ht & Hin).
    apply in_rev in Hin. apply (find_none _ _ E t) in Hin.
    rewrite Ht, String.eqb_refl in Hin. discriminate Hin. }
  split.
  - unfold survivors.
    assert (Hsub : forall ks, (forall k, In k ks -> In k (names tests)) ->
      names (flat_map (fun name => option_list (last_named name tests)) ks)
      = ks).
    { induction ks as [|k ks IH]; intros Hks; simpl; [reflexivity|].
      destruct (Hsome k (Hks k (or_introl eq_refl))) as (t & Ht).
      rewrite Ht. simpl. rewrite (Hfind k t Ht). f_equal.
      apply IH. intros k' Hk'. apply Hks. right. exact Hk'. }
    apply Hsub. intros k Hk. apply in_first_occurrences. exact Hk.
  - intros t Hin. unfold survivors in Hin.
    apply in_flat_map in Hin as (name & _ & Hin).
    destruct (last_named name tests) as [t'|] eqn:E; simpl in Hin;
      [|contradiction].
    destruct Hin as [<-|[]]. rewrite (Hfind name t' E). exact E.
Qed.

(** C8.  The document is the fixed template, written out below, around
    the bodies of the tests left after removing duplicates by name: one
    test per name, the last one given, in the order in which the names
    first occur; the bodies are put one after the other with one blank
    line in between.  With no tests the document is complete and its body
    region is empty. *)
Theorem format_test_file_dedup (test_class_name package_name : string)
  (tests : list GeneratedTest) :
  format_test_file test_class_name package_name tests =
    String.concat nl
      [ "package " ++ package_name ++ ".test;";
        "";
        "import org.junit.jupiter.api.Test;";
        "import org.junit.jupiter.api.BeforeEach;";
        "import static org.junit.jupiter.api.Assertions.*;";
        "import " ++ package_name ++ ".*;";
        "";
        "public class " ++ test_class_name ++ " {";
        "    ";
        "    private Object instance;";
        "    ";
        "    @BeforeEach";
        "    public void setUp() {";
        "        // Initialize test fixtures";
        "    }";
        "    ";
        blank_line_separated (map test_code (survivors tests));
        "}";
        "" ]%string /\
  names (survivors tests) = first_occurrences (names tests) /\
  (forall t, In t (survivors tests) ->
             last_named (test_method_name t) tests = Some t) /\
  format_test_file test_class_name package_name [] =
    String.concat nl
      [ "package " ++ package_name ++ ".test;";
        "";
        "import org.junit.jupiter.api.Test;";
        "import org.junit.jupiter.api.BeforeEach;";
        "import static org.junit.jupiter.api.Assertions.*;";
        "import " ++ package_name ++ ".*;";
        "";
        "public class " ++ test_class_name ++ " {";
        "    ";
        "    private Object instance;";
        "    ";
        "    @BeforeEach";
        "    public void setUp() {";
        "        // Initialize test fixtures";
        "    }";
        "    ";
        "";
        "}";
        "" ]%string.
Proof.
  split; [|split; [|split]].
  - unfold format_test_file.
    rewrite unique_tests_values, <- join_blank_line_separated. reflexivity.
  - apply survivors_names.
  - apply survivors_names.
  - reflexivity.
Qed.

(** Of the two sample tests named [testA] the document holds the later
    one, at the place of the first, before the test named [testB]. *)
Lemma format_test_file_dedup_witness :
  format_test_file "WidgetTest" "com.acme" Samples.repeated_tests =
    String.concat nl
      [ "package " ++ "com.acme" ++ ".test;";
        "";
        "import org.junit.jupiter.api.Test;";
        "import org.junit.jupiter.api.BeforeEach;";
        "import static org.junit.jupiter.api.Assertions.*;";
        "import " ++ "com.acme" ++ ".*;";
        "";
        "public class " ++ "WidgetTest" ++ " {";
        "    ";
        "    private Object instance;";
        "    ";
        "    @BeforeEach";
        "    public void setUp() {";
        "        // Initialize test fixtures";
        "    }";
        "    ";
        "last body" ++ nl ++ nl ++ "middle body";
        "}";
        "" ]%string.
Proof.
  destruct (format_test_file_dedup "WidgetTest" "com.acme"
              Samples.repeated_tests) as (Hdoc & _).
  rewrite Hdoc. reflexivity.
Defined.

End Assembly.

(** ** The element tree *)

Section TreeFacts.

Import ET.

Lemma in_descendants (t : string) (a : list (string * string))
  (kids : list element) (y : element) :
  In y (descendants (Element t a kids)) <->
  exists kid, In kid kids /\ (y = kid \/ In y (descendants kid)).
Proof.
  cbn [descendants]. induction kids as [|k kids IH].
  - split; [intros [] | intros (kid & [] & _)].
  - cbn [In]. rewrite in_app_iff, IH. split.
    + intros [E|[Hk|(kid & Hkid & Hy)]].
      * exists k. split; [left; reflexivity | left; symmetry; exact E].
      * exists k. split; [left; reflexivity | right; exact Hk].
      * exists kid. split; [right; exact Hkid | exact Hy].
    + intros (kid & [E|Hkid] & Hy).
      * subst kid. destruct Hy as [E|Hy]; [left; symmetry; exact E|].
        right; left; exact Hy.
      * right; right. exists kid. split; assumption.
Qed.

Lemma element_induction (P : element -> Prop) :
  (forall t a kids, Forall P kids -> P (Element t a kids)) ->
  forall e, P e.
Proof.
  intros Hstep. fix IH 1. intros [t a kids]. apply Hstep.
  induction kids as [|k kids IHkids]; constructor.
  - apply IH.
  - exact IHkids.
Qed.

Lemma descendants_trans (x y z : element) :
  In x (descendants y) -> In y (descendants z) -> In x (descendants z).
Proof.
  intros Hxy. induction z as [t a kids IH] using element_induction.
  rewrite !in_descendants. intros (kid & Hkid & Hy).
  exists kid. split; [exact Hkid|]. right.
  destruct Hy as [->|Hy]; [exact Hxy|].
  rewrite Forall_forall in IH. apply (IH kid Hkid Hy).
Qed.

Lemma children_descendants (c e : element) :
  In c (children e) -> In c (descendants e).
Proof.
  destruct e as [t a kids]. cbn [children]. intros Hc.
  apply in_descendants. exists c. split; [exact Hc | left; reflexivity].
Qed.

Lemma findall_below_descendants (e x : element) (name : string) :
  In x (findall_below e name) -> In x (descendants e).
Proof. unfold findall_below. intros H. apply filter_In in H. apply H. Qed.

Lemma findall_children_below (e c : element) (name : string) :
  In c (findall_children e name) -> In c (findall_below e name).
Proof.
  unfold findall_children, findall_below. rewrite !filter_In.
  intros [Hc Htag]. split; [apply children_descendants; exact Hc | exact Htag].
Qed.

Lemma findall_below_trans (x y z : element) (outer inner : string) :
  In y (findall_below z outer) -> In x (findall_below y inner) ->
  In x (findall_below z inner).
Proof.
  unfold findall_below. rewrite !filter_In. intros [Hy _] [Hx Htag].
  split; [apply (descendants_trans x y z); assumption | exact Htag].
Qed.

End TreeFacts.

(** ** Exceptions and termination of the parser *)

Section ParserOutcomes.

Import ET CoverageParser Terms CounterTerms Further.

Lemma bind_raise {A B : Type} (m : result A) (k : A -> result B) (e : exn) :
  bind m k = Raise e ->
  m = Raise e \/ exists a, m = Ok a /\ k a = Raise e.
Proof.
  destruct m as [a|e']; simpl; intros H.
  - right. exists a. split; [reflexivity | exact H].
  - left. injection H as ->. reflexivity.
Qed.

Lemma for_each_raises {A S : Type} (P : exn -> Prop)
  (body : S -> A -> result S) (xs : list A) :
  (forall s x e, In x xs -> body s x = Raise e -> P e) ->
  forall s e, for_each xs body s = Raise e -> P e.
Proof.
  induction xs as [|x xs IH]; intros Hbody s e Hrun; simpl in Hrun.
  - discriminate Hrun.
  - apply bind_raise in Hrun as [Hx|(s1 & _ & Hrest)].
    + apply (Hbody s x e); [left; reflexivity | exact Hx].
    + apply (IH (fun s0 y e0 Hy => Hbody s0 y e0 (or_intror Hy)) s1 e Hrest).
Qed.

Lemma for_each_returns {A S : Type} (body : S -> A -> result S)
  (xs : list A) :
  (forall s x, In x xs -> exists s', body s x = Ok s') ->
  forall s, exists s', for_each xs body s = Ok s'.
Proof.
  induction xs as [|x xs IH]; intros Hbody s; simpl.
  - exists s. reflexivity.
  - destruct (Hbody s x (or_introl eq_refl)) as (s1 & ->). simpl.
    apply IH. intros s0 y Hy. apply Hbody. right. exact Hy.
Qed.

Lemma coverage_percent_loop_raises (cs : list element) (kind : string)
  (e : exn) :
  coverage_percent_loop cs kind = Raise e ->
  e = ValueError \/
  (e = OverflowError /\
   exists c covered missed,
     In c cs /\ int_attr c "covered" = Ok covered /\
     int_attr c "missed" = Ok missed /\ (covered < 0 \/ missed < 0)).
Proof.
  induction cs as [|c cs IH]; simpl; [discriminate|].
  assert (Hrest : coverage_percent_loop cs kind = Raise e ->
            e = ValueError \/
            (e = OverflowError /\
             exists c0 covered missed,
               In c0 (c :: cs) /\ int_attr c0 "covered" = Ok covered /\
               int_attr c0 "missed" = Ok missed /\
               (covered < 0 \/ missed < 0))).
  { intros H. destruct (IH H) as [E|(E & c0 & cov & mis & Hc0 & Hrest)];
      [left; exact E|].
    right. split; [exact E|]. exists c0, cov, mis.
    split; [right; exact Hc0 | exact Hrest]. }
  destruct (type_is c kind); [|exact Hrest].
  destruct (int_attr c "covered") as [cov|e1] eqn:Hcov; cbn [bind].
  - destruct (int_attr c "missed") as [mis|e2] eqn:Hmis; cbn [bind].
    + destruct (Z.ltb_spec 0 (cov + mis)) as [Hlt|_]; [|exact Hrest].
      destruct (truediv_cases cov (cov + mis)) as [Hok|[Hover _]]; [lia| |].
      * rewrite Hok. discriminate.
      * rewrite Hover. cbn [bind]. intros H; injection H as <-.
        right. split; [reflexivity|]. exists c, cov, mis.
        split; [left; reflexivity|]. split; [exact Hcov|].
        split; [exact Hmis|].
        apply (truediv_overflow_negative cov mis Hlt Hover).
    + intros H; injection H as <-. left.
      apply (int_attr_raises _ _ _ Hmis).
  - intros H; injection H as <-. left. apply (int_attr_raises _ _ _ Hcov).
Qed.

Lemma percent_raises (root el : element) (counter_type : string) (e : exn) :
  In el (descendants root) ->
  _get_coverage_percent el counter_type = Raise e ->
  raise_allowed root e.
Proof.
  intros Hel H. unfold _get_coverage_percent in H.
  apply coverage_percent_loop_raises in H
    as [E|(E & c & cov & mis & Hc & Hrest)]; [left; exact E|].
  right. split; [exact E|]. exists c, cov, mis. split; [|exact Hrest].
  apply findall_children_below in Hc.
  unfold findall_below in *. rewrite filter_In in *.
  destruct Hc as [Hc Htag]. split; [|exact Htag].
  apply (descendants_trans _ _ _ Hc Hel).
Qed.

Lemma uncovered_step_raises (acc : list Z) (line : element) (e : exn) :
  uncovered_step acc line = Raise e -> e = ValueError.
Proof.
  unfold uncovered_step. intros H.
  apply bind_raise in H as [H|(nr & _ & H)];
    [apply (int_attr_raises _ _ _ H)|].
  apply bind_raise in H as [H|(ci & _ & H)];
    [apply (int_attr_raises _ _ _ H) | discriminate H].
Qed.

Lemma method_step_raises (root : element) (pn full : string)
  (gaps : list CoverageGap) (m : element) (e : exn) :
  In m (descendants root) ->
  method_step pn full gaps m = Raise e -> raise_allowed root e.
Proof.
  unfold method_step, _get_uncovered_lines. intros Hm H.
  apply bind_raise in H as [H|(line & _ & H)];
    [apply (percent_raises root m "line" e Hm H)|].
  apply bind_raise in H as [H|(branch & _ & H)];
    [apply (percent_raises root m "branch" e Hm H)|].
  destruct (float_lt line 100); [|discriminate H].
  apply bind_raise in H as [H|(unc & _ & H)]; [|discriminate H].
  left.
  apply (for_each_raises (fun e0 => e0 = ValueError) uncovered_step _
           (fun s x e0 _ => uncovered_step_raises s x e0) _ _ H).
Qed.

Lemma class_step_raises (root : element) (pn : string) (st : scan)
  (cls : element) (e : exn) :
  In cls (descendants root) ->
  class_step pn st cls = Raise e -> raise_allowed root e.
Proof.
  unfold class_step. intros Hcls H.
  apply bind_raise in H as [H|(gaps' & _ & H)].
  - apply (for_each_raises (raise_allowed root) _ _) in H; [exact H|].
    intros s m e0 Hm Hstep. apply findall_below_descendants in Hm.
    exact (method_step_raises root _ _ s m e0
             (descendants_trans _ _ _ Hm Hcls) Hstep).
  - apply bind_raise in H as [H|(cl & _ & H)];
      [apply (percent_raises root cls "line" e Hcls H)|].
    apply bind_raise in H as [H|(cb & _ & H)];
      [apply (percent_raises root cls "branch" e Hcls H) | discriminate H].
Qed.

Lemma counter_percent_raises (root c : element) (e : exn) :
  In c (findall_below root "counter") ->
  counter_percent c = Raise e -> raise_allowed root e.
Proof.
  unfold counter_percent. intros Hc H.
  destruct (int_attr c "covered") as [cov|e1] eqn:Hcov; cbn [bind] in H;
    [|injection H as <-; left; apply (int_attr_raises _ _ _ Hcov)].
  destruct (int_attr c "missed") as [mis|e2] eqn:Hmis; cbn [bind] in H;
    [|injection H as <-; left; apply (int_attr_raises _ _ _ Hmis)].
  destruct (Z.ltb_spec 0 (cov + mis)) as [Hlt|_]; [|discriminate H].
  destruct (truediv_cases cov (cov + mis)) as [Hok|[Hover _]]; [lia| |].
  - rewrite Hok in H. discriminate H.
  - rewrite Hover in H. cbn [bind] in H. injection H as <-.
    right. split; [reflexivity|]. exists c, cov, mis.
    split; [exact Hc|]. split; [exact Hcov|]. split; [exact Hmis|].
    apply (truediv_overflow_negative cov mis Hlt Hover).
Qed.

Lemma counter_step_raises (root : element) (st : scan) (c : element)
  (e : exn) :
  In c (findall_below root "counter") ->
  counter_step st c = Raise e -> raise_allowed root e.
Proof.
  unfold counter_step. intros Hc.
  destruct (String.eqb _ "LINE"); [|destruct (String.eqb _ "BRANCH")];
    intros H; try discriminate H;
    (apply bind_raise in H as [H|(p & _ & H)];
     [apply (counter_percent_raises root c e Hc H) | discriminate H]).
Qed.

Lemma parse_report_raise_allowed (root : element) (e : exn) :
  parse_report root = Raise e -> raise_allowed root e.
Proof.
  unfold parse_report, scan_packages, scan_counters. intros H.
  apply bind_raise in H as [H|(st & _ & H)].
  - apply (for_each_raises (raise_allowed root) package_step _) in H;
      [exact H|].
    intros s package e0 Hpackage Hp. unfold package_step in Hp.
    apply findall_below_descendants in Hpackage.
    apply (for_each_raises (raise_allowed root) _ _) in Hp; [exact Hp|].
    intros s0 cls e1 Hcls Hstep. apply findall_below_descendants in Hcls.
    exact (class_step_raises root _ s0 cls e1
             (descendants_trans _ _ _ Hcls Hpackage) Hstep).
  - apply bind_raise in H as [H|(st' & _ & H)]; [|discriminate H].
    apply (for_each_raises (raise_allowed root) counter_step _) in H;
      [exact H|].
    intros s c e0 Hc Hstep. apply (counter_step_raises root s c e0 Hc Hstep).
Qed.

(** The traversal of the parser raises [ValueError], for an integer
    attribute that [int] does not read, or [OverflowError], for a quotient
    too large for a float, and the latter only when some counter of the
    document has a negative count.  It raises nothing else: it divides by
    no zero total and reads no attribute of [None]. *)
Theorem parse_report_exceptions (root : element) (e : exn) :
  parse_report root = Raise e ->
  e = ValueError \/
  (e = OverflowError /\
   exists c covered missed,
     In c (findall_below root "counter") /\
     reads c "covered" covered /\ reads c "missed" missed /\
     (covered < 0 \/ missed < 0)).
Proof.
  intros H.
  destruct (parse_report_raise_allowed root e H)
    as [E|(E & c & cov & mis & Hc & Hcov & Hmis & Hneg)]; [left; exact E|].
  right. split; [exact E|]. exists c, cov, mis.
  split; [exact Hc|]. split; [apply reads_int_attr; exact Hcov|].
  split; [apply reads_int_attr; exact Hmis | exact Hneg].
Qed.

(** A report with an unreadable count raises [ValueError]. *)
Lemma parse_report_exceptions_witness :
  parse_report (Element "report" [] [Samples.counter "LINE" "many" "0"])
  = Raise ValueError.
Proof.
  destruct (parse_report
              (Element "report" [] [Samples.counter "LINE" "many" "0"]))
    as [report|e] eqn:Hrun.
  - vm_compute in Hrun. discriminate Hrun.
  - f_equal.
    destruct (parse_report_exceptions _ _ Hrun)
      as [E|(_ & c & cov & mis & Hc & Hcov & _)]; [exact E|].
    simpl in Hc. destruct Hc as [<-|[]]. vm_compute in Hcov.
    discriminate Hcov.
Defined.

(** A count of 10^400 against a total of 1 raises [OverflowError]. *)
Lemma overflowing_count_raises :
  parse_report MoreSamples.overflowing_report = Raise OverflowError.
Proof. vm_compute. reflexivity. Qed.

Lemma coverage_percent_loop_returns (cs : list element) (kind : string) :
  (forall c, In c cs -> readable_node c) ->
  (forall c covered missed,
      In c cs -> int_attr c "covered" = Ok covered ->
      int_attr c "missed" = Ok missed -> 0 <= covered /\ 0 <= missed) ->
  exists p, coverage_percent_loop cs kind = Ok p.
Proof.
  induction cs as [|c cs IH]; intros Hread Hnn; simpl.
  - eexists; reflexivity.
  - assert (Hrest : exists p, coverage_percent_loop cs kind = Ok p).
    { apply IH.
      - intros c' Hc'. apply Hread. right. exact Hc'.
      - intros c' cov mis Hc'. apply Hnn. right. exact Hc'. }
    destruct (type_is c kind); [|exact Hrest].
    destruct (Hread c (or_introl eq_refl) "covered") as (cov & Hcov);
      [simpl; tauto|].
    destruct (Hread c (or_introl eq_refl) "missed") as (mis & Hmis);
      [simpl; tauto|].
    rewrite Hcov, Hmis. cbn [bind].
    destruct (Hnn c cov mis (or_introl eq_refl) Hcov Hmis) as [Hc0 Hm0].
    destruct (Z.ltb_spec 0 (cov + mis)) as [Hlt|_]; [|exact Hrest].
    rewrite truediv_ok by lia. eexists; reflexivity.
Qed.

Lemma percent_returns (root el : element) (counter_type : string) :
  readable root -> counts_nonnegative root ->
  In el (descendants root) ->
  exists p, _get_coverage_percent el counter_type = Ok p.
Proof.
  intros Hread Hnn Hel.
  assert (Hsub : forall c, In c (findall_children el "counter") ->
                   In c (findall_below root "counter")).
  { intros c Hc. apply findall_children_below in Hc.
    unfold findall_below in *. rewrite filter_In in *.
    destruct Hc as [Hc Htag]. split; [|exact Htag].
    apply (descendants_trans _ _ _ Hc Hel). }
  apply coverage_percent_loop_returns.
  - intros c Hc. apply Hread. apply Hsub in Hc.
    apply (findall_below_descendants _ _ _ Hc).
  - intros c cov mis Hc. apply Hnn. apply Hsub. exact Hc.
Qed.

Lemma uncovered_lines_returns (m : element) :
  (forall c, In c (children m) -> readable_node c) ->
  exists lines, _get_uncovered_lines m = Ok lines.
Proof.
  intros Hread. unfold _get_uncovered_lines.
  apply for_each_returns. intros acc line Hline. unfold uncovered_step.
  assert (Hr : readable_node line).
  { apply Hread. unfold findall_children in Hline.
    apply filter_In in Hline. apply Hline. }
  destruct (Hr "nr") as (nr & ->); [simpl; tauto|].
  destruct (Hr "ci") as (ci & ->); [simpl; tauto|].
  eexists; reflexivity.
Qed.

Lemma method_step_returns (root : element) (pn full : string)
  (gaps : list CoverageGap) (m : element) :
  readable root -> counts_nonnegative root ->
  In m (descendants root) ->
  exists gaps', method_step pn full gaps m = Ok gaps'.
Proof.
  intros Hread Hnn Hm. unfold method_step.
  destruct (percent_returns root m "line" Hread Hnn Hm) as (line & ->).
  destruct (percent_returns root m "branch" Hread Hnn Hm) as (branch & ->).
  cbn [bind]. destruct (float_lt line 100); [|eexists; reflexivity].
  destruct (uncovered_lines_returns m) as (unc & ->); [|eexists; reflexivity].
  intros c Hc. apply Hread.
  apply (descendants_trans c m root); [|exact Hm].
  apply children_descendants. exact Hc.
Qed.

Lemma parse_report_returns_readable (root : element) :
  readable root -> counts_nonnegative root ->
  exists report, parse_report root = Ok report.
Proof.
  intros Hroot Hnn.
  unfold parse_report, scan_packages, scan_counters.
  destruct (for_each_returns package_step (findall_below root "package"))
    with (s := initial_scan) as (st & ->).
  { intros s package Hpackage. unfold package_step.
    apply findall_below_descendants in Hpackage.
    apply for_each_returns. intros s0 cls Hcls. unfold class_step.
    apply findall_below_descendants in Hcls.
    pose proof (descendants_trans _ _ _ Hcls Hpackage) as Hcls_root.
    destruct (for_each_returns
                (method_step (get_default package "name" "")
                   (full_class_name (get_default package "name" "")
                      (get_default cls "name" "")))
                (findall_below cls "method"))
      with (s := scan_gaps s0) as (gaps' & ->).
    { intros g m Hm. apply (method_step_returns root); [exact Hroot|exact Hnn|].
      apply findall_below_descendants in Hm.
      apply (descendants_trans _ _ _ Hm Hcls_root). }
    destruct (percent_returns root cls "line" Hroot Hnn Hcls_root)
      as (cl & ->).
    destruct (percent_returns root cls "branch" Hroot Hnn Hcls_root)
      as (cb & ->).
    eexists; reflexivity. }
  cbn [bind].
  destruct (for_each_returns counter_step (findall_below root "counter"))
    with (s := st) as (st' & ->).
  { intros s c Hc.
    assert (Hp : exists p, counter_percent c = Ok p).
    { unfold counter_percent.
      destruct (Hroot c (findall_below_descendants _ _ _ Hc) "covered")
        as (cov & Hcov); [simpl; tauto|].
      destruct (Hroot c (findall_below_descendants _ _ _ Hc) "missed")
        as (mis & Hmis); [simpl; tauto|].
      rewrite Hcov, Hmis. cbn [bind].
      destruct (Hnn c cov mis Hc Hcov Hmis) as [Hc0 Hm0].
      destruct (Z.ltb_spec 0 (cov + mis)) as [Hlt|_];
        [|eexists; reflexivity].
      rewrite truediv_ok by lia. eexists; reflexivity. }
    destruct Hp as (p & Hp). unfold counter_step.
    destruct (String.eqb _ "LINE"); [rewrite Hp; eexists; reflexivity|].
    destruct (String.eqb _ "BRANCH"); [rewrite Hp|]; eexists; reflexivity. }
  eexists; reflexivity.
Qed.

(** On a document in which every covered, missed, nr and ci attribute is
    absent or a text that [int] reads (a decimal literal of at most 4300
    digits), and no counter stands for a negative count, the parser
    returns a report. *)
Theorem parse_report_returns (root : element) :
  decimal_counts root -> no_negative_count root ->
  exists report, parse_report root = Ok report.
Proof.
  intros Hread Hnn. apply parse_report_returns_readable.
  - intros e He key Hkey. destruct (Hread e He key Hkey) as (n & Hn).
    exists n. apply reads_int_attr. exact Hn.
  - intros c cov mis Hc Hcov Hmis.
    apply (Hnn c cov mis Hc); apply reads_int_attr; assumption.
Qed.

End ParserOutcomes.

Section ParserOutcomesWitness.

Import ET CoverageParser Terms CounterTerms Further.

(** The sample report parses. *)
Lemma parse_report_returns_witness :
  exists report, parse_report Samples.widget_report = Ok report.
Proof.
  apply parse_report_returns.
  - intros e He key Hkey. simpl in He.
    repeat (destruct He as [<-|He]);
      try (exfalso; exact He);
      simpl in Hkey;
      repeat (destruct Hkey as [<-|Hkey]);
      try (exfalso; exact Hkey);
      eexists; reflexivity.
  - intros c covered missed Hc Hcov Hmis. simpl in Hc.
    destruct Hc as [<-|[]]. vm_compute in Hcov, Hmis.
    injection Hcov as <-. injection Hmis as <-. lia.
Defined.

End ParserOutcomesWitness.

(** ** The totals and the fields of the gaps *)

Section TotalsAndFields.

Import ET CoverageParser Terms Further.

Lemma last_live_found (kind : string) (cs : list element) (q : Q) :
  fold_left
    (fun found c =>
       match live_percent kind c with
       | Some p => Some p
       | None => found
       end) cs (Some q)
  = match last_live kind cs with
    | Some p => Some p
    | None => Some q
    end.
Proof.
  unfold last_live. revert q.
  induction cs as [|c cs IH]; intros q; simpl; [reflexivity|].
  destruct (live_percent kind c) as [p|].
  - rewrite !IH. destruct (fold_left _ cs None); reflexivity.
  - apply IH.
Qed.

Lemma last_live_cons (kind : string) (c : element) (cs : list element) :
  last_live kind (c :: cs) =
  match last_live kind cs with
  | Some p => Some p
  | None => live_percent kind c
  end.
Proof.
  unfold last_live at 1. simpl.
  destruct (live_percent kind c) as [p|]; [apply last_live_found|].
  fold (last_live kind cs). destruct (last_live kind cs); reflexivity.
Qed.

Lemma last_live_none (kind : string) (cs : list element) :
  last_live kind cs = None ->
  forall c, In c cs -> live_percent kind c = None.
Proof.
  induction cs as [|c cs IH]; intros Hnone c' Hc'; [contradiction|].
  rewrite last_live_cons in Hnone.
  destruct (last_live kind cs) as [p|] eqn:Hrest; [discriminate|].
  destruct Hc' as [<-|Hc']; [exact Hnone | apply IH; [reflexivity|exact Hc']].
Qed.

Lemma last_live_some (kind : string) (cs : list element) (p : Q) :
  last_live kind cs = Some p ->
  exists c, In c cs /\ live_percent kind c = Some p.
Proof.
  induction cs as [|c cs IH]; intros Hsome; [discriminate|].
  rewrite last_live_cons in Hsome.
  destruct (last_live kind cs) as [q|] eqn:Hrest.
  - injection Hsome as <-. destruct (IH eq_refl) as (c' & Hc' & Hp).
    exists c'. split; [right; exact Hc' | exact Hp].
  - exists c. split; [left; reflexivity | exact Hsome].
Qed.

Lemma counter_step_totals (st st' : scan) (c : element) :
  counter_step st c = Ok st' ->
  scan_line st' = match live_percent "LINE" c with
                  | Some p => p
                  | None => scan_line st
                  end /\
  scan_branch st' = match live_percent "BRANCH" c with
                    | Some p => p
                    | None => scan_branch st
                    end.
Proof.
  unfold counter_step, live_percent.
  destruct (String.eqb_spec (get_default c "type" "") "LINE") as [E|Hline].
  - rewrite E. cbn [String.eqb Ascii.eqb Bool.eqb].
    intros H. apply bind_ok in H as (p & Hp & H). rewrite Hp.
    injection H as <-. destruct p; split; reflexivity.
  - destruct (String.eqb_spec (get_default c "type" "") "BRANCH") as [E|_].
    + intros H. apply bind_ok in H as (p & Hp & H). rewrite Hp.
      injection H as <-. destruct p; split; reflexivity.
    + intros H. injection H as <-. split; reflexivity.
Qed.

Lemma counters_pass_totals (cs : list element) :
  forall st st',
    for_each cs counter_step st = Ok st' ->
    scan_line st' = match last_live "LINE" cs with
                    | Some p => p
                    | None => scan_line st
                    end /\
    scan_branch st' = match last_live "BRANCH" cs with
                      | Some p => p
                      | None => scan_branch st
                      end.
Proof.
  induction cs as [|c cs IH]; intros st st' Hrun; simpl in Hrun.
  - injection Hrun as <-. split; reflexivity.
  - apply bind_ok in Hrun as (s1 & Hc & Hrest).
    apply IH in Hrest as [Hl Hb].
    apply counter_step_totals in Hc as [Hl1 Hb1].
    rewrite !last_live_cons, Hl, Hb, Hl1, Hb1.
    split.
    + destruct (last_live "LINE" cs); [reflexivity|].
      destruct (live_percent "LINE" c); reflexivity.
    + destruct (last_live "BRANCH" cs); [reflexivity|].
      destruct (live_percent "BRANCH" c); reflexivity.
Qed.

(** A node none of whose own counters of the kind sets a percentage has
    percentage 0. *)
Lemma idle_percent_zero (cs : list element) (kind : string) (p : Q) :
  kind <> EmptyString ->
  (forall c, In c cs -> live_percent kind c = None) ->
  coverage_percent_loop cs kind = Ok p -> p = 0%Q.
Proof.
  intros Hkind. induction cs as [|c cs IH]; intros Hidle Hrun; simpl in Hrun.
  - injection Hrun as <-. reflexivity.
  - assert (Hrest : coverage_percent_loop cs kind = Ok p -> p = 0%Q)
      by (apply IH; intros c' Hc'; apply Hidle; right; exact Hc').
    destruct (type_is c kind) eqn:Htype; [|exact (Hrest Hrun)].
    pose proof (Hidle c (or_introl eq_refl)) as Hc.
    unfold live_percent, get_default in Hc. unfold type_is in Htype.
    destruct (get c "type") as [t|]; [|discriminate Htype].
    rewrite Htype in Hc. unfold counter_percent in Hc.
    apply bind_ok in Hrun as (cov & Hcov & Hrun).
    apply bind_ok in Hrun as (mis & Hmis & Hrun).
    rewrite Hcov, Hmis in Hc. cbn [bind] in Hc.
    destruct (Z.ltb_spec 0 (cov + mis)) as [Hlt|_]; [|exact (Hrest Hrun)].
    apply bind_ok in Hrun as (ratio & Hratio & _).
    rewrite Hratio in Hc. discriminate Hc.
Qed.

Lemma class_pass_idle (root : element) (st : scan) :
  scan_packages root = Ok st ->
  (last_live "LINE" (findall_below root "counter") = None ->
   scan_line st = 0%Q) /\
  (last_live "BRANCH" (findall_below root "counter") = None ->
   scan_branch st = 0%Q).
Proof.
  unfold scan_packages. intros Hrun.
  assert (Hinv : forall kind,
            kind = "LINE" \/ kind = "BRANCH" ->
            last_live kind (findall_below root "counter") = None ->
            forall cls counter_type p,
              In cls (descendants root) -> upper counter_type = kind ->
              _get_coverage_percent cls counter_type = Ok p -> p = 0%Q).
  { intros kind Hkind Hnone cls counter_type p Hcls Hup Hp.
    unfold _get_coverage_percent in Hp. rewrite Hup in Hp.
    apply (idle_percent_zero (findall_children cls "counter") kind p);
      [| |exact Hp].
    - destruct Hkind as [->| ->]; discriminate.
    - intros c Hc. apply (last_live_none kind _ Hnone).
      apply findall_children_below in Hc.
      unfold findall_below in *. rewrite filter_In in *.
      destruct Hc as [Hc Htag]. split; [|exact Htag].
      apply (descendants_trans _ _ _ Hc Hcls). }
  split.
  - intros Hnone.
    apply (for_each_invariant package_step
             (fun s => scan_line s = 0%Q) (findall_below root "package"))
      with (s := initial_scan); [|reflexivity|exact Hrun].
    intros s package s' Hpackage Hs Hp. unfold package_step in Hp.
    apply findall_below_descendants in Hpackage.
    apply (for_each_invariant (class_step (get_default package "name" ""))
             (fun s0 => scan_line s0 = 0%Q) (findall_below package "class"))
      with (s := s); [|exact Hs|exact Hp].
    intros s0 cls s0' Hcls Hs0 Hc. unfold class_step in Hc.
    apply findall_below_descendants in Hcls.
    apply bind_ok in Hc as (gaps' & _ & Hc).
    apply bind_ok in Hc as (cl & Hcl & Hc).
    apply bind_ok in Hc as (cb & _ & Hc).
    injection Hc as <-. cbn [scan_line].
    rewrite (Hinv "LINE" (or_introl eq_refl) Hnone cls "line" cl
               (descendants_trans _ _ _ Hcls Hpackage) eq_refl Hcl).
    rewrite Hs0. reflexivity.
  - intros Hnone.
    apply (for_each_invariant package_step
             (fun s => scan_branch s = 0%Q) (findall_below root "package"))
      with (s := initial_scan); [|reflexivity|exact Hrun].
    intros s package s' Hpackage Hs Hp. unfold package_step in Hp.
    apply findall_below_descendants in Hpackage.
    apply (for_each_invariant (class_step (get_default package "name" ""))
             (fun s0 => scan_branch s0 = 0%Q) (findall_below package "class"))
      with (s := s); [|exact Hs|exact Hp].
    intros s0 cls s0' Hcls Hs0 Hc. unfold class_step in Hc.
    apply findall_below_descendants in Hcls.
    apply bind_ok in Hc as (gaps' & _ & Hc).
    apply bind_ok in Hc as (cl & _ & Hc).
    apply bind_ok in Hc as (cb & Hcb & Hc).
    injection Hc as <-. cbn [scan_branch].
    rewrite (Hinv "BRANCH" (or_intror eq_refl) Hnone cls "branch" cb
               (descendants_trans _ _ _ Hcls Hpackage) eq_refl Hcb).
    rewrite Hs0. reflexivity.
Qed.

End TotalsAndFields.

Section ReportFacts.

Import ET CoverageParser Terms Further.

Lemma report_totals (root : element) (report : CoverageReport) :
  parse_report root = Ok report ->
  total_line_coverage report =
    match last_live "LINE" (findall_below root "counter") with
    | Some p => p
    | None => 0%Q
    end /\
  total_branch_coverage report =
    match last_live "BRANCH" (findall_below root "counter") with
    | Some p => p
    | None => 0%Q
    end.
Proof.
  unfold parse_report. intros H.
  apply bind_ok in H as (st & Hst & H).
  apply bind_ok in H as (st' & Hst' & H).
  injection H as <-. cbn [total_line_coverage total_branch_coverage].
  apply counters_pass_totals in Hst' as [Hl Hb].
  apply class_pass_idle in Hst as [Hl0 Hb0].
  rewrite Hl, Hb. split.
  - destruct (last_live "LINE" _); [reflexivity | apply Hl0; reflexivity].
  - destruct (last_live "BRANCH" _); [reflexivity | apply Hb0; reflexivity].
Qed.

(** The totals of a parsed report are decided by the counters pass alone:
    each is the percentage of the last counter of its kind, anywhere
    below the root, that counts something, and 0 when there is none.  The
    maximum over the classes never shows in the result. *)
Theorem totals_from_last_counter (root : element) (report : CoverageReport) :
  parse_report root = Ok report ->
  total_line_coverage report =
    match last_live "LINE" (findall_below root "counter") with
    | Some p => p
    | None => 0%Q
    end /\
  total_branch_coverage report =
    match last_live "BRANCH" (findall_below root "counter") with
    | Some p => p
    | None => 0%Q
    end.
Proof. apply report_totals. Qed.

(** In the sample report the only counter, the one of the method, sets
    the total. *)
Lemma totals_from_last_counter_witness :
  exists report,
    parse_report Samples.widget_report = Ok report /\
    total_line_coverage report = 60%Q /\
    total_branch_coverage report = 0%Q.
Proof.
  destruct (parse_report Samples.widget_report) as [report|e] eqn:Hrun.
  - exists report. split; [reflexivity|].
    destruct (totals_from_last_counter _ _ Hrun) as [Hl Hb].
    rewrite Hl, Hb. split; reflexivity.
  - vm_compute in Hrun. discriminate Hrun.
Defined.

Lemma percent_bounds (covered missed : Z) :
  0 <= covered -> 0 <= missed -> 0 < covered + missed ->
  (0 <= float_mul (Qred (inject_Z covered / inject_Z (covered + missed))) 100
   /\ float_mul (Qred (inject_Z covered / inject_Z (covered + missed))) 100
      <= 100)%Q.
Proof.
  intros Hc Hm Hpos. rewrite float_mul_eq, Qred_correct.
  destruct (covered + missed) as [|t|t] eqn:Ht; try lia.
  unfold Qle, Qdiv, Qmult, Qinv, inject_Z. simpl.
  split; nia.
Qed.

Lemma live_percent_counts (kind : string) (c : element) (p : Q) :
  live_percent kind c = Some p ->
  exists covered missed,
    counts c covered missed /\ 0 < covered + missed /\
    p = float_mul (Qred (inject_Z covered / inject_Z (covered + missed))) 100.
Proof.
  unfold live_percent, counter_percent.
  destruct (String.eqb _ kind); [|discriminate].
  destruct (int_attr c "covered") as [cov|] eqn:Hcov; [|discriminate].
  destruct (int_attr c "missed") as [mis|] eqn:Hmis; [|discriminate].
  cbn [bind]. destruct (Z.ltb_spec 0 (cov + mis)) as [Hlt|_]; [|discriminate].
  destruct (truediv cov (cov + mis)) as [ratio|] eqn:Hratio; [|discriminate].
  apply truediv_value in Hratio. subst ratio.
  cbn [bind]. intros H; injection H as <-.
  exists cov, mis. repeat split; assumption.
Qed.

Lemma coverage_percent_loop_value (cs : list element) (kind : string)
  (p : Q) :
  coverage_percent_loop cs kind = Ok p ->
  p = 0%Q \/
  exists c covered missed,
    In c cs /\ counts c covered missed /\ 0 < covered + missed /\
    p = float_mul (Qred (inject_Z covered / inject_Z (covered + missed))) 100.
Proof.
  induction cs as [|c cs IH]; intros Hrun; simpl in Hrun.
  - injection Hrun as <-. left. reflexivity.
  - assert (Hrest : coverage_percent_loop cs kind = Ok p ->
              p = 0%Q \/
              exists c0 covered missed,
                In c0 (c :: cs) /\ counts c0 covered missed /\
                0 < covered + missed /\
                p = float_mul
                      (Qred (inject_Z covered / inject_Z (covered + missed)))
                      100).
    { intros Hp. destruct (IH Hp) as [E|(c0 & cov & mis & Hc0 & Hrest)];
        [left; exact E|].
      right. exists c0, cov, mis. split; [right; exact Hc0 | exact Hrest]. }
    destruct (type_is c kind); [|exact (Hrest Hrun)].
    apply bind_ok in Hrun as (cov & Hcov & Hrun).
    apply bind_ok in Hrun as (mis & Hmis & Hrun).
    destruct (Z.ltb_spec 0 (cov + mis)) as [Hlt|_]; [|exact (Hrest Hrun)].
    apply bind_ok in Hrun as (ratio & Hratio & Hrun).
    apply truediv_value in Hratio. subst ratio.
    injection Hrun as <-. right. exists c, cov, mis.
    split; [left; reflexivity|]. repeat split; assumption.
Qed.

(** When no counter of the document has a negative count, the totals of
    the report lie between 0 and 100, and so do the percentages of every
    gap, the line percentage staying below 100. *)
Theorem percentages_within_bounds (root : element) (report : CoverageReport) :
  parse_report root = Ok report ->
  counts_nonnegative root ->
  (0 <= total_line_coverage report <= 100)%Q /\
  (0 <= total_branch_coverage report <= 100)%Q /\
  forall g, In g (gaps report) ->
    (0 <= line_coverage g)%Q /\ (line_coverage g < 100)%Q /\
    (0 <= branch_coverage g <= 100)%Q.
Proof.
  intros Hparse Hnn.
  assert (Hlive : forall kind p,
            last_live kind (findall_below root "counter") = Some p ->
            (0 <= p <= 100)%Q).
  { intros kind p Hp. apply last_live_some in Hp as (c & Hc & Hp).
    apply live_percent_counts in Hp as (cov & mis & [Hcov Hmis] & Hpos & ->).
    destruct (Hnn c cov mis Hc Hcov Hmis) as [H1 H2].
    apply percent_bounds; assumption. }
  assert (Hzero : (0 <= 0 <= 100)%Q) by (split; discriminate).
  assert (Hown : forall m counter_type p,
            In m (descendants root) ->
            _get_coverage_percent m counter_type = Ok p ->
            (0 <= p <= 100)%Q).
  { intros m counter_type p Hm Hp. unfold _get_coverage_percent in Hp.
    apply coverage_percent_loop_value in Hp
      as [->|(c & cov & mis & Hc & [Hcov Hmis] & Hpos & ->)]; [exact Hzero|].
    apply findall_children_below in Hc.
    assert (Hc' : In c (findall_below root "counter")).
    { unfold findall_below in *. rewrite filter_In in *.
      destruct Hc as [Hc Htag]. split; [|exact Htag].
      apply (descendants_trans _ _ _ Hc Hm). }
    destruct (Hnn c cov mis Hc' Hcov Hmis) as [H1 H2].
    apply percent_bounds; assumption. }
  destruct (report_totals root report Hparse) as [Hl Hb].
  rewrite Hl, Hb. split; [|split].
  - destruct (last_live "LINE" _) as [p|] eqn:E;
      [apply (Hlive "LINE"); exact E | exact Hzero].
  - destruct (last_live "BRANCH" _) as [p|] eqn:E;
      [apply (Hlive "BRANCH"); exact E | exact Hzero].
  - intros g Hg.
    destruct (report_gap_origin root report Hparse g Hg)
      as (Hlt & [[pn full] m] & Hv & Hgv).
    apply visited_methods_spec in Hv
      as (package & cls & Hpackage & Hcls & Hm & _ & _).
    assert (Hm_root : In m (descendants root)).
    { apply findall_below_descendants in Hpackage, Hcls, Hm.
      apply (descendants_trans _ _ _ Hm).
      apply (descendants_trans _ _ _ Hcls Hpackage). }
    destruct Hgv as (line & branch & unc & Hline & Hbranch & _ & ->).
    cbn [line_coverage branch_coverage make_gap] in *.
    split; [apply (Hown m "line" line Hm_root Hline)|].
    split; [exact Hlt|].
    apply (Hown m "branch" branch Hm_root Hbranch).
Qed.

(** The sample report has no negative count. *)
Lemma percentages_within_bounds_witness :
  exists report,
    parse_report Samples.widget_report = Ok report /\
    (0 <= total_line_coverage report <= 100)%Q.
Proof.
  destruct (parse_report Samples.widget_report) as [report|e] eqn:Hrun.
  - exists report. split; [reflexivity|].
    apply (percentages_within_bounds _ _ Hrun).
    intros c covered missed Hc Hcov Hmis. simpl in Hc.
    destruct Hc as [<-|[]]. vm_compute in Hcov, Hmis.
    injection Hcov as <-. injection Hmis as <-. lia.
  - vm_compute in Hrun. discriminate Hrun.
Defined.

Lemma replace_removes (old new : ascii) (s : string) :
  old <> new -> ~ occurs old (replace old new s).
Proof.
  intros Hne. unfold occurs, replace.
  induction s as [|a s IH]; simpl; [tauto|].
  intros [E|Hin]; [|exact (IH Hin)].
  destruct (Ascii.eqb_spec a old) as [Ea|Hna].
  - apply Hne. symmetry. exact E.
  - apply Hna. exact E.
Qed.

(** Where the fields of a gap come from: a method element below a class
    element below a package element; the package name is the name
    attribute of the package as it stands, the class name is the package
    name, a dot and the class's name attribute with every slash turned
    into a dot (so it holds no slash), the method name is the method's
    name followed by its descriptor, and the uncovered lines are those of
    the method. *)
Theorem gap_fields (root : element) (report : CoverageReport) :
  parse_report root = Ok report ->
  forall g, In g (gaps report) ->
    exists package cls m,
      In package (findall_below root "package") /\
      In cls (findall_below package "class") /\
      In m (findall_below cls "method") /\
      package_name g = get_default package "name" "" /\
      class_name g =
        replace "/"%char "."%char
          (package_name g ++ "." ++ get_default cls "name" "")%string /\
      ~ occurs "/"%char (class_name g) /\
      method_name g =
        Some (get_default m "name" "" ++ get_default m "desc" "")%string /\
      _get_uncovered_lines m = Ok (uncovered_lines g).
Proof.
  intros Hparse g Hg.
  destruct (report_gap_origin root report Hparse g Hg)
    as (_ & [[pn full] m] & Hv & Hgv).
  apply visited_methods_spec in Hv
    as (package & cls & Hpackage & Hcls & Hm & -> & ->).
  destruct Hgv as (line & branch & unc & _ & _ & Hunc & ->).
  exists package, cls, m. cbn [package_name class_name method_name
                                uncovered_lines make_gap].
  repeat (split; [assumption || reflexivity|]).
  split; [apply replace_removes; discriminate|].
  split; [reflexivity | exact Hunc].
Qed.

(** The class name of the sample gap holds no slash. *)
Lemma gap_fields_witness :
  ~ occurs "/"%char "com.acme.Widget".
Proof.
  destruct (gap_fields Samples.widget_report MoreSamples.widget_parsed
              eq_refl MoreSamples.widget_gap (or_introl eq_refl))
    as (package & cls & m & _ & _ & _ & _ & _ & Hno & _).
  exact Hno.
Defined.

Lemma uncovered_loop (ls : list element) :
  forall acc out,
    for_each ls uncovered_step acc = Ok out ->
    exists readings,
      Forall2 (fun l r => int_attr l "nr" = Ok (fst r) /\
                          int_attr l "ci" = Ok (snd r)) ls readings /\
      out = acc ++ map fst (filter (fun r => snd r =? 0) readings).
Proof.
  induction ls as [|l ls IH]; intros acc out Hrun; simpl in Hrun.
  - injection Hrun as <-. exists []. split; [constructor|].
    rewrite app_nil_r. reflexivity.
  - apply bind_ok in Hrun as (mid & Hl & Hrest).
    unfold uncovered_step in Hl.
    apply bind_ok in Hl as (nr & Hnr & Hl).
    apply bind_ok in Hl as (ci & Hci & Hl). injection Hl as <-.
    apply IH in Hrest as (readings & Hall & ->).
    exists ((nr, ci) :: readings). split.
    + constructor; [split; assumption | exact Hall].
    + cbn [filter snd]. destruct (ci =? 0); [|reflexivity].
      rewrite <- app_assoc. reflexivity.
Qed.

(** The uncovered lines of a method are the line numbers of its own
    [line] entries whose covered-instruction count reads 0, in document
    order; an entry without the [ci] attribute reads 0 and is listed, an
    entry without [nr] is listed as line 0. *)
Theorem uncovered_lines_are_zero_ci (m : element) (lines : list Z) :
  _get_uncovered_lines m = Ok lines ->
  exists readings,
    Forall2 (fun l r => int_attr l "nr" = Ok (fst r) /\
                        int_attr l "ci" = Ok (snd r))
      (findall_children m "line") readings /\
    lines = map fst (filter (fun r => snd r =? 0) readings) /\
    (forall l, get l "ci" = None -> int_attr l "ci" = Ok 0) /\
    (forall l, get l "nr" = None -> int_attr l "nr" = Ok 0).
Proof.
  unfold _get_uncovered_lines. intros Hrun.
  apply uncovered_loop in Hrun as (readings & Hall & ->).
  exists readings. split; [exact Hall|]. split; [reflexivity|].
  split; intros l Hl; unfold int_attr; rewrite Hl; reflexivity.
Qed.

(** Of the three sample entries, the one with [ci] 0 and the one without
    [ci] are listed. *)
Lemma uncovered_lines_are_zero_ci_witness :
  exists readings,
    Forall2 (fun l r => int_attr l "nr" = Ok (fst r) /\
                        int_attr l "ci" = Ok (snd r))
      (findall_children MoreSamples.lined_method "line") readings /\
    [3; 7] = map fst (filter (fun r => snd r =? 0) readings).
Proof.
  destruct (uncovered_lines_are_zero_ci MoreSamples.lined_method [3; 7])
    as (readings & Hall & Hlines & _).
  - reflexivity.
  - exists readings. split; [exact Hall | exact Hlines].
Defined.

End ReportFacts.

(** ** From the report to the tests and the document *)

Section Pipeline.

Import TestGenerator GenTerms Further.

Lemma signature_or_not (gs : list CoverageParser.CoverageGap) :
  Forall has_signature gs \/
  Exists (fun g => CoverageParser.method_name g = None) gs.
Proof.
  induction gs as [|g gs [IH|IH]].
  - left. constructor.
  - destruct (CoverageParser.method_name g) as [s|] eqn:E.
    + left. constructor; [unfold has_signature; congruence | exact IH].
    + right. left. exact E.
  - right. right. exact IH.
Qed.

Lemma generate_tests_inv (gaps : list CoverageParser.CoverageGap) (n : Z)
  (tests : list GeneratedTest) :
  generate_tests gaps n = Ok tests ->
  tests = flat_map (tests_of n) (firstn 10 gaps).
Proof.
  intros Hrun.
  assert (Hok : Forall has_signature (firstn 10 gaps) \/ n <= 0).
  { destruct (signature_or_not (firstn 10 gaps)) as [H|H]; [left; exact H|].
    destruct (Z_lt_le_dec 0 n) as [Hn|Hn]; [|right; exact Hn].
    unfold generate_tests in Hrun.
    rewrite (gaps_loop_raises n _ Hn H) in Hrun. discriminate Hrun. }
  rewrite (generate_tests_ok gaps n Hok) in Hrun.
  injection Hrun as <-. reflexivity.
Qed.

(** Every generated entry points back to one of the first ten gaps, which
    carries a signature; its target class and target method are those of
    the gap and its class name is the test class name of its target. *)
Theorem generated_entries_linked (gaps : list CoverageParser.CoverageGap)
  (n : Z) (tests : list GeneratedTest) :
  generate_tests gaps n = Ok tests ->
  forall t, In t tests ->
    exists g signature,
      In g (firstn 10 gaps) /\
      CoverageParser.method_name g = Some signature /\
      target_class t = CoverageParser.class_name g /\
      target_method t = Some signature /\
      class_name t = _get_test_class_name (target_class t).
Proof.
  intros Hrun t Ht. apply generate_tests_inv in Hrun. subst tests.
  apply in_flat_map in Ht as (g & Hg & Ht). unfold tests_of in Ht.
  destruct (CoverageParser.method_name g) as [signature|] eqn:Hsig;
    [|contradiction].
  apply in_map_iff in Ht as (i & <- & _).
  exists g, signature. repeat split; try assumption; reflexivity.
Qed.

(** The two tests of the sample gap point back to it. *)
Lemma generated_entries_linked_witness :
  exists g signature,
    In g (firstn 10 [Samples.getValue_gap]) /\
    CoverageParser.method_name g = Some signature /\
    "com.acme.Widget" = CoverageParser.class_name g /\
    Some "getValue()I" = Some signature /\
    "WidgetTest" = _get_test_class_name "com.acme.Widget".
Proof.
  apply (generated_entries_linked [Samples.getValue_gap] 2
           (tests_of 2 Samples.getValue_gap ++ []) eq_refl
           (generated_test Samples.getValue_gap "getValue()I" 0)).
  left. reflexivity.
Defined.

(** The count of the generator on gaps that carry a signature. *)
Lemma generate_tests_count_witness :
  exists tests,
    generate_tests [Samples.getValue_gap; MoreSamples.overload_int] 2
      = Ok tests /\
    Z.of_nat (length tests) = 4.
Proof.
  destruct (generate_tests_count
              [Samples.getValue_gap; MoreSamples.overload_int] 2)
    as (_ & tests & Hrun & _ & Hlen).
  - lia.
  - repeat constructor; discriminate.
  - exists tests. split; [exact Hrun | exact Hlen].
Defined.

Lemma parsed_gaps_have_signature (root : ET.element)
  (report : CoverageParser.CoverageReport) :
  CoverageParser.parse_report root = Ok report ->
  Forall has_signature (CoverageParser.gaps report).
Proof.
  intros Hparse. apply Forall_forall. intros g Hg.
  destruct (report_gap_origin root report Hparse g Hg)
    as (_ & [[pn full] m] & _ & Hgv).
  destruct Hgv as (line & branch & unc & _ & _ & _ & ->).
  unfold has_signature. discriminate.
Qed.

Lemma Forall_firstn {A : Type} (P : A -> Prop) (k : nat) (l : list A) :
  Forall P l -> Forall P (firstn k l).
Proof.
  intros H. revert k. induction H as [|x l Hx _ IH]; intros [|k]; simpl;
    constructor; [exact Hx | apply IH].
Qed.

(** On the gaps of a parsed report the generator never raises: it returns
    min(10, number of gaps) times max(0, n) entries. *)
Theorem parsed_gaps_generate (root : ET.element)
  (report : CoverageParser.CoverageReport) (n : Z) :
  CoverageParser.parse_report root = Ok report ->
  exists tests,
    generate_tests (CoverageParser.gaps report) n = Ok tests /\
    Z.of_nat (length tests) =
      Z.min 10 (Z.of_nat (length (CoverageParser.gaps report))) * Z.max 0 n.
Proof.
  intros Hparse.
  pose proof (Forall_firstn _ 10 _ (parsed_gaps_have_signature _ _ Hparse))
    as Hall.
  eexists. split; [apply generate_tests_ok; left; exact Hall|].
  rewrite (flat_map_length_const _ (Z.to_nat n)).
  - rewrite length_firstn, Nat2Z.inj_mul, Nat2Z.inj_min.
    f_equal; lia.
  - apply Forall_forall. intros g Hg. apply tests_of_length.
    rewrite Forall_forall in Hall. apply Hall. exact Hg.
Qed.

(** Three tests per gap on the sample report, which has one gap. *)
Lemma parsed_gaps_generate_witness :
  exists tests,
    generate_tests (CoverageParser.gaps MoreSamples.widget_parsed) 3
      = Ok tests /\
    Z.of_nat (length tests) = 3.
Proof.
  apply (parsed_gaps_generate Samples.widget_report
           MoreSamples.widget_parsed 3).
  reflexivity.
Defined.

End Pipeline.

(** ** Names and duplicates *)

Section NamesAndDuplicates.

Import TestGenerator GenTerms Further.

Lemma split_nonempty (sep : ascii) (s : string) : split sep s <> [].
Proof.
  destruct s as [|a s]; simpl; [discriminate|].
  destruct (Ascii.eqb a sep); [discriminate|].
  destruct (split sep s); discriminate.
Qed.

Lemma split_pieces_clean (sep : ascii) (s : string) :
  Forall (fun piece => ~ occurs sep piece) (split sep s).
Proof.
  unfold occurs. induction s as [|a s IH]; simpl.
  - constructor; [simpl; tauto | constructor].
  - destruct (Ascii.eqb_spec a sep) as [E|Hne].
    + constructor; [simpl; tauto | exact IH].
    + destruct (split sep s) as [|piece pieces].
      * constructor; [|constructor]. simpl. intros [E|[]]. exact (Hne E).
      * inversion IH as [|? ? Hpiece Hrest]; subst.
        constructor; [|exact Hrest].
        simpl. intros [E|Hin]; [exact (Hne E) | exact (Hpiece Hin)].
Qed.

(** Joining the pieces of a split with the separator gives the text back. *)
Lemma join_split (sep : ascii) (s : string) :
  join (String sep EmptyString) (split sep s) = s.
Proof.
  unfold join. induction s as [|a s IH]; simpl; [reflexivity|].
  destruct (Ascii.eqb_spec a sep) as [E|Hne].
  - subst a. pose proof (split_nonempty sep s) as Hs.
    destruct (split sep s) as [|piece pieces]; [contradiction|].
    change (String.concat (String sep "") ("" :: piece :: pieces)%string)
      with (String sep (String.concat (String sep "") (piece :: pieces))).
    rewrite IH. reflexivity.
  - destruct (split sep s) as [|piece pieces].
    + simpl in IH. subst s. reflexivity.
    + destruct pieces as [|piece' pieces]; simpl in *; rewrite <- IH;
        reflexivity.
Qed.

Lemma string_app_assoc (x y z : string) :
  ((x ++ y) ++ z = x ++ y ++ z)%string.
Proof. induction x as [|c x IH]; simpl; [|rewrite IH]; reflexivity. Qed.

Lemma concat_last (sep : string) (pieces : list string) :
  pieces <> [] ->
  exists front,
    String.concat sep pieces = (front ++ last pieces EmptyString)%string /\
    (front = EmptyString \/ exists p, front = (p ++ sep)%string).
Proof.
  induction pieces as [|x pieces IH]; intros Hne; [contradiction|].
  destruct pieces as [|y pieces].
  - exists EmptyString. split; [reflexivity | left; reflexivity].
  - destruct IH as (front & Hcat & Hfront); [discriminate|].
    change (String.concat sep (x :: y :: pieces))
      with (x ++ sep ++ String.concat sep (y :: pieces))%string.
    change (last (x :: y :: pieces) EmptyString)
      with (last (y :: pieces) EmptyString).
    rewrite Hcat. exists (x ++ sep ++ front)%string. split.
    + rewrite !string_app_assoc. reflexivity.
    + right. destruct Hfront as [->|(p & ->)].
      * exists x. 
        assert (E : (sep ++ "")%string = sep)
          by (clear; induction sep as [|c s IHs]; simpl;
              [|rewrite IHs]; reflexivity).
        rewrite E. reflexivity.
      * exists (x ++ sep ++ p)%string. rewrite !string_app_assoc.
        reflexivity.
Qed.

(** The test class name is the part of the target class name after its
    last dot, followed by [Test]; that part holds no dot, and what stands
    before it is empty or ends with a dot. *)
Theorem test_class_name_shape (target_class : string) :
  exists front simple,
    _get_test_class_name target_class = (simple ++ "Test")%string /\
    target_class = (front ++ simple)%string /\
    ~ occurs "."%char simple /\
    (front = EmptyString \/ exists p, front = (p ++ ".")%string).
Proof.
  destruct (concat_last "." (split "."%char target_class)
              (split_nonempty _ _)) as (front & Hcat & Hfront).
  exists front, (last_item (split "."%char target_class)).
  split; [reflexivity|]. split.
  - unfold last_item. rewrite <- Hcat. symmetry.
    apply (join_split "."%char).
  - split; [|exact Hfront].
    pose proof (split_pieces_clean "."%char target_class) as Hclean.
    rewrite Forall_forall in Hclean. apply Hclean. unfold last_item.
    pose proof (split_nonempty "."%char target_class) as Hne.
    destruct (split "."%char target_class) as [|x l]; [contradiction|].
    apply (@exists_last _ (x :: l)) in Hne as (init & z & E).
    rewrite E, last_last. apply in_or_app. right. left. reflexivity.
Qed.

Lemma map_injective_on {A B : Type} (f : A -> B) (l : list A) :
  NoDup (map f l) ->
  forall x y, In x l -> In y l -> f x = f y -> x = y.
Proof.
  induction l as [|a l IH]; simpl; intros Hnd x y Hx Hy E; [contradiction|].
  inversion Hnd as [|? ? Hnin Hnd']; subst.
  destruct Hx as [<-|Hx], Hy as [<-|Hy].
  - reflexivity.
  - exfalso. apply Hnin. rewrite E. apply in_map. exact Hy.
  - exfalso. apply Hnin. rewrite <- E. apply in_map. exact Hx.
  - apply IH; assumption.
Qed.

Lemma first_occurrences_nodup_id (l : list string) :
  NoDup l -> first_occurrences l = l.
Proof.
  induction 1 as [|x l Hnin _ IH]; simpl; [reflexivity|].
  rewrite IH. f_equal. clear IH.
  induction l as [|y l IHl]; simpl; [reflexivity|].
  destruct (String.eqb_spec y x) as [E|_]; simpl.
  - exfalso. apply Hnin. left. exact E.
  - f_equal. apply IHl. intros H. apply Hnin. right. exact H.
Qed.

Lemma last_named_in (name : string) (tests : list GeneratedTest)
  (t : GeneratedTest) :
  last_named name tests = Some t ->
  In t tests /\ test_method_name t = name.
Proof.
  unfold last_named. intros H. apply find_some in H as [Hin Hname].
  split; [apply in_rev; exact Hin | apply String.eqb_eq; exact Hname].
Qed.

Lemma last_named_unique (tests : list GeneratedTest) (t : GeneratedTest) :
  NoDup (names tests) -> In t tests ->
  last_named (test_method_name t) tests = Some t.
Proof.
  intros Hnd Ht.
  destruct (last_named (test_method_name t) tests) as [t'|] eqn:E.
  - apply last_named_in in E as [Hin Hname]. f_equal.
    apply (map_injective_on test_method_name tests Hnd); assumption.
  - exfalso. unfold last_named in E. apply in_rev in Ht.
    apply (find_none _ _ E) in Ht. rewrite String.eqb_refl in Ht.
    discriminate Ht.
Qed.

Lemma pick_each (pool kept : list GeneratedTest) :
  (forall t, In t kept -> last_named (test_method_name t) pool = Some t) ->
  flat_map (fun name => option_list (last_named name pool)) (names kept)
  = kept.
Proof.
  induction kept as [|t kept IH]; intros Hpick; simpl; [reflexivity|].
  rewrite (Hpick t (or_introl eq_refl)). simpl. f_equal.
  apply IH. intros t' Ht'. apply Hpick. right. exact Ht'.
Qed.

Lemma unique_names_kept (tests : list GeneratedTest) :
  NoDup (names tests) -> values (unique_tests tests) = tests.
Proof.
  intros Hnd. rewrite unique_tests_values. unfold survivors.
  rewrite first_occurrences_nodup_id by exact Hnd.
  apply pick_each. intros t Ht. apply last_named_unique; assumption.
Qed.

Lemma nodup_map_injective {A B : Type} (f : A -> B) (l : list A) :
  (forall x y, f x = f y -> x = y) -> NoDup l -> NoDup (map f l).
Proof.
  intros Hinj. induction 1 as [|x l Hnin _ IH]; simpl; constructor;
    [|exact IH].
  intros Hin. apply in_map_iff in Hin as (y & E & Hy).
  apply Hinj in E. subst y. exact (Hnin Hy).
Qed.

Lemma tests_of_names_nodup (gap : CoverageParser.CoverageGap) (n : Z) :
  NoDup (names (tests_of n gap)).
Proof.
  unfold tests_of, names.
  destruct (CoverageParser.method_name gap) as [signature|]; [|constructor].
  rewrite map_map. cbn [test_method_name generated_test].
  unfold range. rewrite map_map.
  apply nodup_map_injective; [|apply seq_NoDup].
  intros i j E. do 3 apply string_app_inv_head in E.
  apply str_of_int_inj in E. lia.
Qed.

Lemma tests_for_method_inv (gap : CoverageParser.CoverageGap) (n : Z)
  (tests : list GeneratedTest) :
  _generate_tests_for_method gap n = Ok tests -> tests = tests_of n gap.
Proof.
  intros Hrun.
  destruct (CoverageParser.method_name gap) as [signature|] eqn:Hsig.
  - rewrite tests_for_method_ok in Hrun
      by (left; unfold has_signature; congruence).
    injection Hrun as <-. reflexivity.
  - destruct (Z_lt_le_dec 0 n) as [Hn|Hn].
    + rewrite (tests_for_method_none gap n Hsig Hn) in Hrun.
      discriminate Hrun.
    + rewrite tests_for_method_ok in Hrun by (right; exact Hn).
      injection Hrun as <-. reflexivity.
Qed.

(** The tests generated for one gap bear different names, so the document
    assembled from them keeps every one of them: it is the template,
    written out below, around all their bodies in order, one blank line
    between two bodies. *)
Theorem one_gap_document_keeps_all (gap : CoverageParser.CoverageGap)
  (n : Z) (tests : list GeneratedTest) (test_class package : string) :
  _generate_tests_for_method gap n = Ok tests ->
  NoDup (map test_method_name tests) /\
  values (unique_tests tests) = tests /\
  format_test_file test_class package tests =
    String.concat nl
      [ "package " ++ package ++ ".test;";
        "";
        "import org.junit.jupiter.api.Test;";
        "import org.junit.jupiter.api.BeforeEach;";
        "import static org.junit.jupiter.api.Assertions.*;";
        "import " ++ package ++ ".*;";
        "";
        "public class " ++ test_class ++ " {";
        "    ";
        "    private Object instance;";
        "    ";
        "    @BeforeEach";
        "    public void setUp() {";
        "        // Initialize test fixtures";
        "    }";
        "    ";
        blank_line_separated (map test_code tests);
        "}";
        "" ]%string.
Proof.
  intros Hrun. apply tests_for_method_inv in Hrun. subst tests.
  pose proof (tests_of_names_nodup gap n) as Hnd.
  split; [exact Hnd|].
  split; [apply unique_names_kept; exact Hnd|].
  unfold format_test_file. rewrite unique_names_kept by exact Hnd.
  rewrite <- join_blank_line_separated. reflexivity.
Qed.

(** Four tests for the sample gap: four names, four bodies kept. *)
Lemma one_gap_document_keeps_all_witness :
  length (values (unique_tests (tests_of 4 Samples.getValue_gap))) = 4%nat.
Proof.
  destruct (one_gap_document_keeps_all Samples.getValue_gap 4
              (tests_of 4 Samples.getValue_gap) "WidgetTest" "com.acme")
    as (_ & Hkept & _).
  - reflexivity.
  - rewrite Hkept. reflexivity.
Defined.

(** Removing duplicates twice is removing them once: the document of the
    tests that document assembly keeps is the document of the tests. *)
Theorem format_test_file_idempotent (test_class package : string)
  (tests : list GeneratedTest) :
  values (unique_tests (values (unique_tests tests)))
    = values (unique_tests tests) /\
  format_test_file test_class package (values (unique_tests tests))
    = format_test_file test_class package tests.
Proof.
  assert (Hkept : values (unique_tests (values (unique_tests tests)))
                  = values (unique_tests tests)).
  { apply unique_names_kept. rewrite unique_tests_values.
    destruct (survivors_names tests) as [-> _].
    apply first_occurrences_nodup. }
  split; [exact Hkept|].
  unfold format_test_file. rewrite Hkept. reflexivity.
Qed.

Lemma first_occurrences_repeat (l extra : list string) :
  (forall x, In x extra -> In x l) ->
  first_occurrences (l ++ extra) = first_occurrences l.
Proof.
  induction extra as [|x extra IH] using rev_ind; intros Hsub.
  - rewrite app_nil_r. reflexivity.
  - rewrite app_assoc, first_occurrences_snoc_old.
    + apply IH. intros y Hy. apply Hsub. apply in_or_app. left. exact Hy.
    + apply in_or_app. left. apply Hsub. apply in_or_app. right. left.
      reflexivity.
Qed.

Lemma last_named_app (name : string) (early late : list GeneratedTest)
  (t : GeneratedTest) :
  last_named name late = Some t -> last_named name (early ++ late) = Some t.
Proof.
  unfold last_named. rewrite rev_app_distr. intros H.
  induction (rev late) as [|x l IH]; simpl in *; [discriminate|].
  destruct (String.eqb (test_method_name x) name); [exact H | apply IH, H].
Qed.

(** Tests given later under the names of earlier tests take their place:
    the document holds the later ones only. *)
Lemma later_tests_replace (early late : list GeneratedTest) :
  names early = names late -> NoDup (names late) ->
  values (unique_tests (early ++ late)) = late.
Proof.
  intros Hsame Hnd. rewrite unique_tests_values. unfold survivors, names.
  rewrite map_app. fold (names early). fold (names late).
  rewrite first_occurrences_repeat
    by (intros x Hx; rewrite Hsame; exact Hx).
  rewrite Hsame, first_occurrences_nodup_id by exact Hnd.
  apply pick_each. intros t Ht. apply last_named_app.
  apply last_named_unique; assumption.
Qed.

(** Two gaps whose method names agree once capitalised (two overloads of
    one method, or two names that differ in case only) get the same test
    names, so the document assembled from the tests of both is the
    template, written out below, around the bodies of the tests of the
    second gap only. *)
Theorem same_name_gaps_collide (g1 g2 : CoverageParser.CoverageGap)
  (s1 s2 : string) (n : Z) (tests : list GeneratedTest)
  (test_class package : string) :
  CoverageParser.method_name g1 = Some s1 ->
  CoverageParser.method_name g2 = Some s2 ->
  capitalize (up_to "("%char s1) = capitalize (up_to "("%char s2) ->
  generate_tests [g1; g2] n = Ok tests ->
  exists first second,
    _generate_tests_for_method g1 n = Ok first /\
    _generate_tests_for_method g2 n = Ok second /\
    tests = first ++ second /\
    map test_method_name first = map test_method_name second /\
    values (unique_tests tests) = second /\
    format_test_file test_class package tests =
      String.concat nl
        [ "package " ++ package ++ ".test;";
          "";
          "import org.junit.jupiter.api.Test;";
          "import org.junit.jupiter.api.BeforeEach;";
          "import static org.junit.jupiter.api.Assertions.*;";
          "import " ++ package ++ ".*;";
          "";
          "public class " ++ test_class ++ " {";
          "    ";
          "    private Object instance;";
          "    ";
          "    @BeforeEach";
          "    public void setUp() {";
          "        // Initialize test fixtures";
          "    }";
          "    ";
          blank_line_separated (map test_code second);
          "}";
          "" ]%string.
Proof.
  intros H1 H2 Hcap Hrun. apply generate_tests_inv in Hrun.
  cbn [firstn flat_map] in Hrun. rewrite app_nil_r in Hrun. subst tests.
  exists (tests_of n g1), (tests_of n g2).
  assert (Hnames : names (tests_of n g1) = names (tests_of n g2)).
  { unfold tests_of, names. rewrite H1, H2, !map_map.
    cbn [test_method_name generated_test]. unfold bare_name.
    rewrite !first_item_split, Hcap. reflexivity. }
  assert (Hkept : values (unique_tests (tests_of n g1 ++ tests_of n g2))
                  = tests_of n g2)
    by (apply later_tests_replace;
        [exact Hnames | apply tests_of_names_nodup]).
  split; [apply tests_for_method_ok; left; unfold has_signature; congruence|].
  split; [apply tests_for_method_ok; left; unfold has_signature; congruence|].
  split; [reflexivity|]. split; [exact Hnames|]. split; [exact Hkept|].
  unfold format_test_file. rewrite Hkept, <- join_blank_line_separated.
  reflexivity.
Qed.

(** The two sample overloads: of four tests, the two of the second
    overload are kept. *)
Lemma same_name_gaps_collide_witness :
  exists first second,
    _generate_tests_for_method MoreSamples.overload_int 2 = Ok first /\
    _generate_tests_for_method MoreSamples.overload_long 2 = Ok second /\
    map test_method_name first = ["testResize_Case1"; "testResize_Case2"] /\
    map test_method_name second = ["testResize_Case1"; "testResize_Case2"] /\
    values (unique_tests (first ++ second)) = second.
Proof.
  destruct (same_name_gaps_collide MoreSamples.overload_int
              MoreSamples.overload_long "resize(I)V" "resize(J)V" 2
              (tests_of 2 MoreSamples.overload_int ++
               tests_of 2 MoreSamples.overload_long ++ [])
              "WidgetTest" "com.acme")
    as (first & second & Hfirst & Hsecond & Htests & Hnames & Hkept & _).
  - reflexivity.
  - reflexivity.
  - reflexivity.
  - reflexivity.
  - exists first, second. split; [exact Hfirst|]. split; [exact Hsecond|].
    rewrite <- Htests. split; [|split; [|exact Hkept]].
    + vm_compute in Hfirst. injection Hfirst as <-. reflexivity.
    + vm_compute in Hsecond. injection Hsecond as <-. reflexivity.
Defined.

End NamesAndDuplicates.

(** ** git_tools.py: the status text *)

Section GitStatusFacts.

Import PyText GitTools.

Lemma status_step_nested (t t' : tally) (line : string) :
  status_step t line = Some t' ->
  incl (untracked t) (staged t) /\ incl (untracked t) (unstaged t) /\
  incl (conflicted t) (staged t) /\ incl (conflicted t) (unstaged t) ->
  incl (untracked t') (staged t') /\ incl (untracked t') (unstaged t') /\
  incl (conflicted t') (staged t') /\ incl (conflicted t') (unstaged t').
Proof.
  unfold status_step.
  destruct line as [|first [|second rest]];
    [intros H; injection H as <-; tauto | discriminate |].
  cbn [is_empty take item String.get]. 
  intros H; injection H as <-. cbn [staged unstaged untracked conflicted].
  assert (Hgrow : forall (c1 c2 : bool) (l1 l2 : list string) x,
            (c1 = true -> c2 = true) -> incl l1 l2 ->
            incl (append_if c1 l1 x) (append_if c2 l2 x)).
  { intros c1 c2 l1 l2 x Himp Hincl. unfold append_if.
    destruct c1.
    - rewrite (Himp eq_refl). intros y Hy. apply in_app_or in Hy.
      apply in_or_app. destruct Hy as [Hy|Hy]; [left; apply Hincl, Hy|right; exact Hy].
    - destruct c2; [|exact Hincl].
      intros y Hy. apply in_or_app. left. apply Hincl, Hy. }
  assert (Hq : String.eqb (String first (String second "")) "??" = true ->
               first = "?"%char /\ second = "?"%char).
  { intros E. apply String.eqb_eq in E. injection E as -> ->. tauto. }
  assert (Hc : member (String first (String second "")) conflict_codes = true ->
               first <> " "%char /\ second <> " "%char).
  { unfold member, conflict_codes. intros E. apply existsb_exists in E
      as (code & Hcode' & E). apply String.eqb_eq in E. subst code.
    simpl in Hcode'.
    repeat (destruct Hcode' as [Hcode'|Hcode'];
            [injection Hcode' as <- <-; split; discriminate|]).
    contradiction. }
  intros (Hus & Huu & Hcs & Hcu).
  repeat split; apply Hgrow; try assumption; intros E.
  - apply Hq in E as [-> _]. reflexivity.
  - apply Hq in E as [_ ->]. reflexivity.
  - apply Hc in E as [Hf _]. apply Bool.negb_true_iff.
    apply Ascii.eqb_neq. exact Hf.
  - apply Hc in E as [_ Hs]. apply Bool.negb_true_iff.
    apply Ascii.eqb_neq. exact Hs.
Qed.

Lemma status_loop_nested (lines : list string) :
  forall t t',
    status_loop lines t = Some t' ->
    incl (untracked t) (staged t) /\ incl (untracked t) (unstaged t) /\
    incl (conflicted t) (staged t) /\ incl (conflicted t) (unstaged t) ->
    incl (untracked t') (staged t') /\ incl (untracked t') (unstaged t') /\
    incl (conflicted t') (staged t') /\ incl (conflicted t') (unstaged t').
Proof.
  induction lines as [|line lines IH]; intros t t' Hrun Hinv; simpl in Hrun.
  - injection Hrun as <-. exact Hinv.
  - destruct (status_step t line) as [t1|] eqn:Hstep; [|discriminate].
    apply (IH t1 t' Hrun). apply (status_step_nested t t1 line Hstep Hinv).
Qed.

(** Whatever [git status --porcelain] printed, in the status that
    [git_status] builds every untracked file and every conflicted file is
    also listed among the staged and among the unstaged changes; the
    status is clean exactly when the staged, unstaged and conflicted lists
    are empty and no commit is ahead, and then no file is untracked
    either. *)
Theorem status_lists_nested (branch : string) (ahead : Z)
  (stdout : string) (status : GitStatus) :
  read_status branch ahead stdout = Some status ->
  incl (untracked_files status) (staged_changes status) /\
  incl (untracked_files status) (unstaged_changes status) /\
  incl (conflicts status) (staged_changes status) /\
  incl (conflicts status) (unstaged_changes status) /\
  (is_clean status = true <->
   staged_changes status = [] /\ unstaged_changes status = [] /\
   conflicts status = [] /\ commits_ahead status = 0) /\
  (is_clean status = true -> untracked_files status = []).
Proof.
  unfold read_status.
  destruct (status_loop _ _) as [t|] eqn:Hloop; [|discriminate].
  intros H; injection H as <-.
  cbn [is_clean staged_changes unstaged_changes untracked_files conflicts
       commits_ahead].
  apply status_loop_nested in Hloop as (Hus & Huu & Hcs & Hcu);
    [|cbn; repeat split; intros x []].
  assert (Hclean : no_items (staged t) && no_items (unstaged t) &&
                   no_items (conflicted t) && (ahead =? 0) = true <->
                   staged t = [] /\ unstaged t = [] /\
                   conflicted t = [] /\ ahead = 0).
  { rewrite !Bool.andb_true_iff, Z.eqb_eq.
    assert (Hno : forall l, no_items l = true <-> l = [])
      by (intros [|x l]; simpl; split; congruence).
    rewrite !Hno. tauto. }
  split; [exact Hus|]. split; [exact Huu|].
  split; [exact Hcs|]. split; [exact Hcu|]. split; [exact Hclean|].
  intros Hc. apply Hclean in Hc as (Hs & _).
  destruct (untracked t) as [|x l]; [reflexivity|].
  exfalso. specialize (Hus x (or_introl eq_refl)). rewrite Hs in Hus.
  exact Hus.
Qed.

End GitStatusFacts.

Section GitStatusMore.

Import PyText GitTools Further.

(** An untracked file and a file in conflict: both show among the staged
    changes. *)
Lemma status_lists_nested_witness :
  exists status,
    read_status "main" 0 MoreSamples.porcelain_sample = Some status /\
    incl (untracked_files status) (staged_changes status) /\
    staged_changes status = ["new.txt"; "both.txt"].
Proof.
  destruct (read_status "main" 0 MoreSamples.porcelain_sample)
    as [status|] eqn:Hrun.
  - exists status. split; [reflexivity|].
    destruct (status_lists_nested _ _ _ _ Hrun) as (Hus & _).
    split; [exact Hus|].
    vm_compute in Hrun. injection Hrun as <-. reflexivity.
  - vm_compute in Hrun. discriminate Hrun.
Defined.

Lemma rstrip_keeps (a : ascii) (s : string) :
  is_whitespace a = false -> rstrip (String a s) = String a (rstrip s).
Proof.
  intros Ha. cbn [rstrip]. rewrite Ha. destruct (rstrip s); reflexivity.
Qed.

Lemma rstrip_newline (s : string) : rstrip (s ++ nl) = rstrip s.
Proof.
  induction s as [|a s IH]; [reflexivity|].
  cbn [append rstrip]. rewrite IH. reflexivity.
Qed.

Lemma split_one_piece (sep : ascii) (s : string) :
  ~ occurs sep s -> split sep s = [s].
Proof.
  unfold occurs. induction s as [|a s IH]; intros Hno; [reflexivity|].
  cbn [split]. destruct (Ascii.eqb_spec a sep) as [E|_].
  - exfalso. apply Hno. left. exact E.
  - rewrite IH; [reflexivity|]. intros Hin. apply Hno. right. exact Hin.
Qed.

(** The first line as both functions see it when the text printed starts
    with a space: the space is gone. *)
Lemma first_line_stripped (x : ascii) (name : string) :
  is_whitespace x = false -> rstrip name = name -> name <> EmptyString ->
  ~ occurs (ascii_of_nat 10) name ->
  split (ascii_of_nat 10)
    (strip (String " " (String x (String " " name)) ++ nl))
  = [String x (String " " name)].
Proof.
  intros Hx Hr Hne Hno.
  assert (Hstrip : strip (String " " (String x (String " " name)) ++ nl)
                   = String x (String " " name)).
  { unfold strip. cbn [append lstrip].
    change (is_whitespace " ") with true. cbn iota. rewrite Hx.
    change (String x (String " " (name ++ nl)))
      with (String x (String " " name) ++ nl)%string.
    rewrite rstrip_newline, (rstrip_keeps x _ Hx). f_equal.
    cbn [rstrip]. rewrite Hr. destruct name; [contradiction | reflexivity]. }
  rewrite Hstrip. apply split_one_piece.
  unfold occurs in *. cbn [list_ascii_of_string In].
  intros [E|[E|Hin]].
  - subst x. discriminate Hx.
  - discriminate E.
  - exact (Hno Hin).
Qed.

(** When the text printed starts with a line for a change in the working
    tree only (a space, a status letter, a space, the file name), the
    leading space is lost to [strip()]: [git_status] lists the entry as
    staged, not as unstaged, under the file name without its first
    character. *)
Theorem status_first_line_shifted (branch : string) (ahead : Z)
  (x : ascii) (name : string) :
  is_whitespace x = false -> rstrip name = name -> name <> EmptyString ->
  ~ occurs (ascii_of_nat 10) name ->
  read_status branch ahead
    (String " " (String x (String " " name)) ++ nl)
  = Some {| is_clean := false;
            staged_changes := [drop 1 name];
            unstaged_changes := [];
            untracked_files := [];
            conflicts := [];
            current_branch := branch;
            commits_ahead := ahead |}.
Proof.
  intros Hx Hr Hne Hno. unfold read_status.
  rewrite (first_line_stripped x name Hx Hr Hne Hno).
  cbn [status_loop status_step is_empty take item String.get drop].
  assert (Hsp : Ascii.eqb x " " = false).
  { apply Ascii.eqb_neq. intros ->. discriminate Hx. }
  rewrite Hsp.
  assert (Hq : String.eqb (String x (String " " "")) "??" = false).
  { apply String.eqb_neq. intros E. injection E as _ E. discriminate E. }
  assert (Hc : member (String x (String " " "")) conflict_codes = false).
  { destruct (member _ conflict_codes) eqn:E; [|reflexivity].
    unfold member in E. apply existsb_exists in E as (code & Hin & E).
    apply String.eqb_eq in E. subst code. simpl in Hin.
    repeat (destruct Hin as [Hin|Hin]; [discriminate Hin|]).
    contradiction. }
  rewrite Hq, Hc. cbn. destruct name; [contradiction | reflexivity].
Qed.

End GitStatusMore.

Section GitStatusShiftWitness.

Import PyText GitTools Further.

(** A modified file [a.txt], alone in the listing, shows as staged
    [.txt]. *)
Lemma status_first_line_shifted_witness :
  read_status "main" 0 (" M a.txt" ++ nl)
  = Some {| is_clean := false;
            staged_changes := [".txt"];
            unstaged_changes := [];
            untracked_files := [];
            conflicts := [];
            current_branch := "main";
            commits_ahead := 0 |}.
Proof.
  apply (status_first_line_shifted "main" 0 "M"%char "a.txt").
  - reflexivity.
  - reflexivity.
  - discriminate.
  - unfold occurs. simpl. intros H.
    repeat (destruct H as [H|H]; [discriminate H|]). exact H.
Defined.

End GitStatusShiftWitness.

(** ** git_tools.py: the files to stage *)

Section GitAddFacts.

Import PyText GitTools Further.

Lemma should_skip_matches (patterns : list string) (filename : string) :
  should_skip patterns filename =
  existsb (fun pattern => pattern_matches pattern filename) patterns.
Proof.
  induction patterns as [|p ps IH]; [reflexivity|].
  cbn [should_skip existsb]. unfold pattern_matches at 1. rewrite IH.
  destruct (endswith p "/").
  - destruct (startswith filename p); reflexivity.
  - destruct (startswith p "*").
    + destruct (endswith filename (drop 1 p)); reflexivity.
    + destruct (contains p filename); reflexivity.
Qed.

Lemma add_loop_members (patterns : list string) (lines : list string) :
  forall acc f,
    In f (fold_left (add_step patterns) lines acc) ->
    In f acc \/
    (should_skip patterns f = false /\
     exists line, In line lines /\ line <> EmptyString /\ f = drop 3 line).
Proof.
  induction lines as [|line lines IH]; intros acc f Hf; simpl in Hf.
  - left. exact Hf.
  - apply IH in Hf as [Hf|(Hskip & l & Hl & Hne & E)].
    + unfold add_step in Hf. destruct line as [|a rest]; [left; exact Hf|].
      cbn [is_empty] in Hf.
      destruct (should_skip patterns (drop 3 (String a rest))) eqn:Hskip;
        [left; exact Hf|].
      apply in_app_or in Hf as [Hf|[<-|[]]]; [left; exact Hf|].
      right. split; [exact Hskip|].
      exists (String a rest). split; [left; reflexivity|].
      split; [discriminate | reflexivity].
    + right. split; [exact Hskip|]. exists l.
      split; [right; exact Hl|]. split; assumption.
Qed.

(** [git_add_all] stages no file that one of the exclude patterns
    matches.  With the default patterns: no file whose name ends in
    [.class], [.jar] or [.pyc], none whose name starts with one of the
    listed directories, none whose name contains [.coverage]; the last
    default pattern, which ends in a slash, is tested as a prefix too, its
    star taken as it stands. *)
Theorem excluded_files_never_staged (exclude_patterns : option (list string))
  (stdout f : string) :
  In f (files_to_add exclude_patterns stdout) ->
  (forall given pattern,
      exclude_patterns = Some given -> In pattern given ->
      pattern_matches pattern f = false) /\
  (exclude_patterns = None ->
   endswith f ".class" = false /\ endswith f ".jar" = false /\
   endswith f ".pyc" = false /\
   startswith f "target/" = false /\ startswith f "build/" = false /\
   startswith f "dist/" = false /\ startswith f "__pycache__/" = false /\
   startswith f ".pytest_cache/" = false /\ startswith f ".venv/" = false /\
   startswith f "node_modules/" = false /\
   contains ".coverage" f = false /\
   startswith f "*.egg-info/" = false).
Proof.
  unfold files_to_add. intros Hf.
  apply add_loop_members in Hf as [[]|(Hskip & _)].
  rewrite should_skip_matches in Hskip.
  assert (Hall : forall ps, existsb (fun p => pattern_matches p f) ps = false ->
                   forall p, In p ps -> pattern_matches p f = false).
  { intros ps Hps p Hp.
    destruct (pattern_matches p f) eqn:E; [|reflexivity].
    assert (Hex : existsb (fun p0 => pattern_matches p0 f) ps = true)
      by (apply existsb_exists; exists p; split; assumption).
    congruence. }
  split.
  - intros given pattern -> Hp. apply (Hall given Hskip pattern Hp).
  - intros ->. pose proof (Hall _ Hskip) as Hd.
    assert (Hat : forall p, In p default_exclude_patterns ->
                    pattern_matches p f = false) by exact Hd.
    unfold default_exclude_patterns in Hat.
    repeat split;
      match goal with
      | |- endswith f ?sfx = false =>
          apply (Hat (String "*" sfx)); simpl; tauto
      | |- startswith f ?p = false => apply (Hat p); simpl; tauto
      | |- contains ?p f = false => apply (Hat p); simpl; tauto
      end.
Qed.

(** Of the three sample entries only the source file is staged, and its
    name has lost nothing: it is not on the first line. *)
Lemma excluded_files_never_staged_witness :
  endswith "src/Widget.java" ".class" = false.
Proof.
  destruct (excluded_files_never_staged None MoreSamples.porcelain_build
              "src/Widget.java") as (_ & Hdefault).
  - left. reflexivity.
  - destruct (Hdefault eq_refl) as (Hclass & _). exact Hclass.
Defined.

(** A pattern that is empty, or that is a lone star, matches every file
    name: with such a pattern in the list nothing is staged. *)
Theorem catch_all_pattern_stages_nothing (given : list string)
  (stdout : string) :
  In EmptyString given \/ In "*" given ->
  files_to_add (Some given) stdout = [].
Proof.
  intros Hcatch. unfold files_to_add.
  assert (Hskip : forall f, should_skip given f = true).
  { intros f. rewrite should_skip_matches. apply existsb_exists.
    destruct Hcatch as [H|H]; [exists EmptyString | exists "*"];
      (split; [exact H|]).
    - unfold pattern_matches. cbn. destruct f; reflexivity.
    - unfold pattern_matches, endswith. cbn.
      rewrite Nat.sub_0_r.
      assert (Hd : forall s, drop (String.length s) s = EmptyString)
        by (induction s as [|a s IHs]; [reflexivity | exact IHs]).
      rewrite Hd. reflexivity. }
  induction (split (ascii_of_nat 10) (strip stdout)) as [|line lines IH];
    [reflexivity|].
  cbn [fold_left]. unfold add_step at 2.
  destruct (is_empty line); [exact IH|]. rewrite Hskip. exact IH.
Qed.

(** With the empty pattern nothing of the sample is staged. *)
Lemma catch_all_pattern_stages_nothing_witness :
  files_to_add (Some ["*.class"; ""]) MoreSamples.porcelain_build = [].
Proof.
  apply catch_all_pattern_stages_nothing.
  left. right. left. reflexivity.
Defined.

(** When the text printed starts with a line for a change in the working
    tree only, [git_add_all] goes on to stage the file name without its
    first character (unless a pattern excludes that name). *)
Theorem add_first_line_shifted (given : list string) (x : ascii)
  (name : string) :
  is_whitespace x = false -> rstrip name = name -> name <> EmptyString ->
  ~ occurs (ascii_of_nat 10) name ->
  files_to_add (Some given)
    (String " " (String x (String " " name)) ++ nl)
  = if should_skip given (drop 1 name) then [] else [drop 1 name].
Proof.
  intros Hx Hr Hne Hno. unfold files_to_add.
  rewrite (first_line_stripped x name Hx Hr Hne Hno).
  cbn [fold_left]. unfold add_step. cbn [is_empty drop].
  destruct name as [|a rest]; [contradiction|]. cbn [drop].
  destruct (should_skip given rest); reflexivity.
Qed.

(** A modified file [a.txt], alone in the listing, is staged as [.txt]. *)
Lemma add_first_line_shifted_witness :
  files_to_add (Some []) (" M a.txt" ++ nl) = [".txt"].
Proof.
  apply (add_first_line_shifted [] "M"%char "a.txt").
  - reflexivity.
  - reflexivity.
  - discriminate.
  - unfold occurs. simpl. intros H.
    repeat (destruct H as [H|H]; [discriminate H|]). exact H.
Defined.

End GitAddFacts.

(** ** The first gaps of a report *)

Section FirstGaps.

Import ET CoverageParser Terms.

Lemma sorted_split (l : list CoverageGap) :
  StronglySorted line_le l ->
  forall k x y,
    In x (firstn k l) -> In y (skipn k l) -> line_le x y.
Proof.
  induction 1 as [|a l Hl IH Ha]; intros k x y Hx Hy.
  - destruct k; contradiction.
  - destruct k as [|k]; [contradiction|]. cbn [firstn skipn] in Hx, Hy.
    destruct Hx as [<-|Hx].
    + rewrite Forall_forall in Ha. apply Ha.
      rewrite <- (firstn_skipn k l). apply in_or_app. right. exact Hy.
    + apply (IH k x y Hx Hy).
Qed.

(** The first [k] gaps of a parsed report are [k] least covered ones: none
    of them has a higher line percentage than any gap after them.  This is
    what the callers rely on when they keep [gaps[:k]] (the generator with
    10, the summaries with 20 and [top_n], the demo with 5 and with the
    first gap alone). *)
Theorem first_gaps_least_covered (root : element) (report : CoverageReport)
  (k : nat) :
  parse_report root = Ok report ->
  forall x y,
    In x (firstn k (gaps report)) -> In y (skipn k (gaps report)) ->
    (line_coverage x <= line_coverage y)%Q.
Proof.
  intros Hparse x y Hx Hy.
  apply parse_report_gaps in Hparse as (discovered & _ & Hgaps).
  rewrite Hgaps in Hx, Hy.
  apply (sorted_split _ (sort_sorted discovered) k x y Hx Hy).
Qed.

(** In the sample with methods at 50, 100, 50 and 0 per cent, the first
    gap is the one at 0. *)
Lemma first_gaps_least_covered_witness :
  exists report x,
    parse_report Samples.three_method_report = Ok report /\
    firstn 1 (gaps report) = [x] /\
    forall y, In y (skipn 1 (gaps report)) ->
              (line_coverage x <= line_coverage y)%Q.
Proof.
  destruct (parse_report Samples.three_method_report) as [report|e] eqn:Hrun.
  - pose proof (first_gaps_least_covered _ _ 1 Hrun) as Hleast.
    assert (Hval := Hrun). vm_compute in Hval. injection Hval as <-.
    eexists _, _. split; [reflexivity|]. split; [reflexivity|].
    intros y Hy. apply Hleast; [left; reflexivity | exact Hy].
  - vm_compute in Hrun. discriminate Hrun.
Defined.

End FirstGaps.


(** ** Checks on small inputs *)

Section Checks.

Import ET CoverageParser TestGenerator.

Example capitalize_lowers_rest : capitalize "getValue" = "Getvalue".
Proof. reflexivity. Qed.

Example capitalize_init : capitalize "<init>" = "<init>".
Proof. reflexivity. Qed.

Example split_signature : split "("%char "render()V" = ["render"; ")V"].
Proof. reflexivity. Qed.

Example split_no_separator : split "."%char "Widget" = ["Widget"].
Proof. reflexivity. Qed.

Example int_of_str_padded : int_of_str " +1_000 " = Ok 1000.
Proof. reflexivity. Qed.

Example int_of_str_letters : int_of_str "12a" = Raise ValueError.
Proof. reflexivity. Qed.

Example int_of_str_empty : int_of_str "" = Raise ValueError.
Proof. reflexivity. Qed.

Example range_three : range 3 = [0; 1; 2].
Proof. reflexivity. Qed.

Example range_negative : range (-2) = [].
Proof. reflexivity. Qed.

Example empty_report_parses :
  parse_report (Element "report" [] []) =
    Ok {| total_line_coverage := 0; total_branch_coverage := 0;
          CoverageParser.gaps := [] |}.
Proof. reflexivity. Qed.

Example unreadable_counter_raises :
  parse_report
    (Element "report" [] [Samples.counter "LINE" "many" "0"])
  = Raise ValueError.
Proof. reflexivity. Qed.

Example three_method_order :
  match parse_report Samples.three_method_report with
  | Ok report => map method_name (CoverageParser.gaps report)
  | Raise _ => []
  end = [Some "zero()V"; Some "first()V"; Some "second()V"].
Proof. reflexivity. Qed.

Example widget_test_names :
  match generate_tests [Samples.gap_for "com.acme.Widget" (Some "render()V")] 2
  with
  | Ok tests => map test_method_name tests
  | Raise _ => []
  end = ["testRender_Case1"; "testRender_Case2"].
Proof. reflexivity. Qed.

Example repeated_tests_document :
  format_test_file "WidgetTest" "com.acme" Samples.repeated_tests =
    file_template "WidgetTest" "com.acme"
      ("last body" ++ nl ++ nl ++ "middle body")%string.
Proof. reflexivity. Qed.

End Checks.
